(** * BrowserWindow: window/content binding, event bridge and registry queries

    A shallow embedding of [lib/browser/api/browser-window.js].

    The JavaScript objects the file works with are modelled as follows:
    - plain objects used as records of optional fields (a bounds patch, the
      own-property table of a window) are finite maps keyed by strings;
    - the native window and the content surface are records holding the
      state the script reads and the calls it makes on them;
    - a call that may raise is a [Completion]: it either returns or throws;
    - event emitters are ordered listener tables. *)

From stdpp Require Import gmap strings list fin_maps.

Local Open Scope string_scope.
Local Open Scope list_scope.

(** ** JavaScript values and completions *)

(** Function objects that this file creates and stores in properties, plus
    arbitrary functions of client code. *)
Inductive jsfun : Type :=
  | F_setBoundsOverride        (* the arrow function of lines 20-26 *)
  | F_getDevToolsWebContents   (* the getter of lines 71-73 *)
  | F_client (n : nat).        (* any other function *)

Inductive jsval : Type :=
  | VUndefined
  | VNull
  | VBool (b : bool)
  | VNum (n : Z)
  | VStr (s : string)
  | VFun (f : jsfun)
  | VObj (handle : nat).

Global Instance jsfun_eq_dec : EqDecision jsfun.
Proof. solve_decision. Defined.

Global Instance jsval_eq_dec : EqDecision jsval.
Proof. solve_decision. Defined.

Inductive JsError : Type :=
  | TypeError (msg : string).

(** The outcome of evaluating a call: a normal return or a throw. *)
Inductive Completion (A : Type) : Type :=
  | Return (a : A)
  | Throw (e : JsError).
Arguments Return {A} a.
Arguments Throw {A} e.

(** A property that holds an object, [null] or [undefined]. *)
Inductive Ref (A : Type) : Type :=
  | RUndefined
  | RNull
  | RObj (a : A).
Arguments RUndefined {A}.
Arguments RNull {A}.
Arguments RObj {A} a.

Definition is_absent {A} (r : Ref A) : bool :=
  match r with
  | RObj _ => false
  | _ => true
  end.

(** ** Registry queries (lines 154-188) *)

Module Registry.

(** What the queries read of a content surface: its identity and whether
    its developer tools hold the focus. *)
Record WebContents : Type := {
  wc_id : nat;
  wc_isDevToolsFocused : bool
}.

(** What the queries read of a top-level window. [constructor_name] is
    [win.constructor.name]. *)
Record Window : Type := {
  constructor_name : string;
  id : nat;
  isFocused : bool;
  webContents : Ref WebContents
}.

(** [isBrowserWindow], lines 154-156:
    [win && win.constructor.name === 'BrowserWindow']. *)
Definition isBrowserWindow (win : Ref Window) : bool :=
  match win with
  | RObj w => bool_decide (constructor_name w = "BrowserWindow")
  | _ => false
  end.

(** [BrowserWindow.fromId], lines 158-161. The argument is the result of
    [TopLevelWindow.fromId(id)]. *)
Definition fromId (win : Ref Window) : option Window :=
  match win with
  | RObj w => if isBrowserWindow win then Some w else None
  | _ => None
  end.

(** [BrowserWindow.getAllWindows], lines 163-165. The argument is the
    array that [TopLevelWindow.getAllWindows()] returns; [filter] builds a
    new array. *)
Definition getAllWindows (toplevel : list Window) : list Window :=
  List.filter (fun w => isBrowserWindow (RObj w)) toplevel.

(** [BrowserWindow.prototype.isDevToolsFocused], lines 216-218:
    [this.webContents.isDevToolsFocused()]. Reading a member of [null] or
    [undefined] throws. *)
Definition isDevToolsFocused (w : Window) : Completion bool :=
  match webContents w with
  | RObj wc => Return (wc_isDevToolsFocused wc)
  | _ => Throw (TypeError "Cannot read property 'isDevToolsFocused'")
  end.

(** The loop shape shared by the queries:
    [for (const window of ws) { if (test(window)) return window }
     return null]. [None] is [null]. *)
Fixpoint for_of_first (test : Window → Completion bool) (ws : list Window)
  : Completion (option Window) :=
  match ws with
  | [] => Return None
  | window :: rest =>
      match test window with
      | Throw e => Throw e
      | Return true => Return (Some window)
      | Return false => for_of_first test rest
      end
  end.

(** [BrowserWindow.getFocusedWindow], lines 167-172. [||] evaluates its
    right operand only when the left one is false. *)
Definition getFocusedWindow (toplevel : list Window)
  : Completion (option Window) :=
  for_of_first
    (fun window =>
       if isFocused window then Return true else isDevToolsFocused window)
    (getAllWindows toplevel).

Section FromWebContents.

(** The native [WebContents.equal]; it is not part of this file. *)
Variable equal : WebContents → WebContents → bool.

(** [BrowserWindow.fromWebContents], lines 174-180. [a && b] is [a]
    itself, hence falsy, when [a] is [null] or [undefined]. *)
Definition fromWebContents (toplevel : list Window) (handle : WebContents)
  : Completion (option Window) :=
  for_of_first
    (fun window =>
       match webContents window with
       | RObj wc => Return (equal wc handle)
       | _ => Return false
       end)
    (getAllWindows toplevel).

End FromWebContents.

(** Identity comparison of content surfaces. *)
Definition same_id (a b : WebContents) : bool :=
  bool_decide (wc_id a = wc_id b).

(** The predicates the two scans decide. *)
Definition focus_holder (w : Window) : bool :=
  isFocused w ||
  match webContents w with
  | RObj wc => wc_isDevToolsFocused wc
  | _ => false
  end.

Definition hosts (equal : WebContents → WebContents → bool)
    (handle : WebContents) (w : Window) : bool :=
  match webContents w with
  | RObj wc => equal wc handle
  | _ => false
  end.

(** The window has its content surface (the data model's invariant). *)
Definition bound (w : Window) : Prop := is_absent (webContents w) = false.

(** [r] is the first element of [ws] that satisfies [p], in the order of
    [ws], or nothing when no element does. *)
Definition first_match (p : Window → bool) (ws : list Window)
    (r : option Window) : Prop :=
  match r with
  | Some w =>
      ∃ before after,
        ws = before ++ w :: after ∧ p w = true ∧
        Forall (fun v => p v = false) before
  | None => Forall (fun v => p v = false) ws
  end.

(** The windows of the scenario of focused-window queries. *)
Definition W1 : Window :=
  {| constructor_name := "BrowserWindow"; id := 1; isFocused := false;
     webContents := RObj {| wc_id := 11; wc_isDevToolsFocused := false |} |}.
Definition W2 : Window :=
  {| constructor_name := "BrowserWindow"; id := 2; isFocused := true;
     webContents := RObj {| wc_id := 12; wc_isDevToolsFocused := false |} |}.
Definition W3 : Window :=
  {| constructor_name := "BrowserWindow"; id := 3; isFocused := false;
     webContents := RObj {| wc_id := 13; wc_isDevToolsFocused := true |} |}.

(** A window whose content surface is gone, and a top-level window of
    another kind. *)
Definition W_detached : Window :=
  {| constructor_name := "BrowserWindow"; id := 4; isFocused := false;
     webContents := RNull |}.
Definition W_plain : Window :=
  {| constructor_name := "TopLevelWindow"; id := 5; isFocused := true;
     webContents := RUndefined |}.

End Registry.

(** ** Own properties of an object (ECMAScript ordinary objects)

    [_init] assigns [this.setBounds] and defines [devToolsWebContents] with
    [Object.defineProperty]; what later code can do to those properties is
    fixed by the language's rules for own properties, which are written out
    here. *)

Module Props.

Inductive Property : Type :=
  | DataProperty (value : jsval) (writable enumerable configurable : bool)
  | AccessorProperty (get set : option jsfun)
                     (enumerable configurable : bool).

Global Instance Property_eq_dec : EqDecision Property.
Proof. solve_decision. Defined.

(** The argument of [Object.defineProperty]: every field may be missing.
    For [d_get] and [d_set], [Some None] is an explicit [undefined]. *)
Record PropertyDescriptor : Type := {
  d_value : option jsval;
  d_writable : option bool;
  d_get : option (option jsfun);
  d_set : option (option jsfun);
  d_enumerable : option bool;
  d_configurable : option bool
}.

Definition is_accessor_descriptor (d : PropertyDescriptor) : bool :=
  bool_decide (is_Some (d_get d)) || bool_decide (is_Some (d_set d)).

Definition is_data_descriptor (d : PropertyDescriptor) : bool :=
  bool_decide (is_Some (d_value d)) || bool_decide (is_Some (d_writable d)).

Definition prop_enumerable (p : Property) : bool :=
  match p with
  | DataProperty _ _ e _ => e
  | AccessorProperty _ _ e _ => e
  end.

Definition prop_configurable (p : Property) : bool :=
  match p with
  | DataProperty _ _ _ c => c
  | AccessorProperty _ _ _ c => c
  end.

(** A field of the descriptor that is present must agree with [cur]. *)
Definition agrees {A} `{EqDecision A} (field : option A) (cur : A) : bool :=
  match field with
  | None => true
  | Some v => bool_decide (v = cur)
  end.

(** The property created for a name the object does not own yet: missing
    attributes default to [undefined] and [false]. *)
Definition create_property (d : PropertyDescriptor) : Property :=
  if is_accessor_descriptor d
  then AccessorProperty (default None (d_get d)) (default None (d_set d))
         (default false (d_enumerable d)) (default false (d_configurable d))
  else DataProperty (default VUndefined (d_value d))
         (default false (d_writable d))
         (default false (d_enumerable d)) (default false (d_configurable d)).

(** May [d] be applied to the existing property [cur]?
    (ValidateAndApplyPropertyDescriptor, the validation steps.) *)
Definition change_allowed (d : PropertyDescriptor) (cur : Property) : bool :=
  if prop_configurable cur then true
  else
    negb (bool_decide (d_configurable d = Some true))
    && agrees (d_enumerable d) (prop_enumerable cur)
    && match cur with
       | DataProperty v w _ _ =>
           if is_accessor_descriptor d then false
           else if w then true
           else negb (bool_decide (d_writable d = Some true))
                && agrees (d_value d) v
       | AccessorProperty g s _ _ =>
           if is_data_descriptor d then false
           else agrees (d_get d) g && agrees (d_set d) s
       end.

(** The property after [d] has been applied to [cur]: the kind changes
    when the descriptor is of the other kind, and every attribute present
    in [d] overwrites the current one. *)
Definition apply_descriptor (d : PropertyDescriptor) (cur : Property)
  : Property :=
  let e := default (prop_enumerable cur) (d_enumerable d) in
  let c := default (prop_configurable cur) (d_configurable d) in
  if is_accessor_descriptor d then
    match cur with
    | AccessorProperty g s _ _ =>
        AccessorProperty (default g (d_get d)) (default s (d_set d)) e c
    | DataProperty _ _ _ _ =>
        AccessorProperty (default None (d_get d)) (default None (d_set d)) e c
    end
  else if is_data_descriptor d then
    match cur with
    | DataProperty v w _ _ =>
        DataProperty (default v (d_value d)) (default w (d_writable d)) e c
    | AccessorProperty _ _ _ _ =>
        DataProperty (default VUndefined (d_value d))
          (default false (d_writable d)) e c
    end
  else
    match cur with
    | DataProperty v w _ _ => DataProperty v w e c
    | AccessorProperty g s _ _ => AccessorProperty g s e c
    end.

(** [Object.defineProperty(obj, name, d)] on an extensible ordinary
    object whose own properties are [tbl]. A descriptor that mixes
    accessor and data fields, or a change that is not allowed, throws. *)
Definition defineProperty (name : string) (d : PropertyDescriptor)
    (tbl : gmap string Property) : Completion (gmap string Property) :=
  if is_accessor_descriptor d && is_data_descriptor d
  then Throw (TypeError "Invalid property descriptor")
  else
    match tbl !! name with
    | None => Return (<[name := create_property d]> tbl)
    | Some cur =>
        if change_allowed d cur
        then Return (<[name := apply_descriptor d cur]> tbl)
        else Throw (TypeError "Cannot redefine property")
    end.

(** [delete obj[name]]: the boolean is the result of the operator
    (strict code throws on [false]). *)
Definition deleteProperty (name : string) (tbl : gmap string Property)
  : bool * gmap string Property :=
  match tbl !! name with
  | None => (true, tbl)
  | Some cur =>
      if prop_configurable cur then (true, delete name tbl)
      else (false, tbl)
  end.

(** [obj[name] = v] when the object is the receiver. Calling a setter and
    consulting the prototype chain lead outside the table; they are
    reported, not performed. *)
Inductive SetOutcome : Type :=
  | SetStored (tbl : gmap string Property)
  | SetRejected              (* TypeError in strict code, else ignored *)
  | SetCallsSetter (setter : jsfun)
  | SetAsksPrototype.

Definition assign (name : string) (v : jsval) (tbl : gmap string Property)
  : SetOutcome :=
  match tbl !! name with
  | None => SetAsksPrototype
  | Some (DataProperty _ true e c) =>
      SetStored (<[name := DataProperty v true e c]> tbl)
  | Some (DataProperty _ false _ _) => SetRejected
  | Some (AccessorProperty _ (Some setter) _ _) => SetCallsSetter setter
  | Some (AccessorProperty _ None _ _) => SetRejected
  end.

(** [obj[name]] when the object is the receiver. *)
Inductive GetOutcome : Type :=
  | GetValue (v : jsval)
  | GetCallsGetter (getter : jsfun)
  | GetAsksPrototype.

Definition get (name : string) (tbl : gmap string Property) : GetOutcome :=
  match tbl !! name with
  | None => GetAsksPrototype
  | Some (DataProperty v _ _ _) => GetValue v
  | Some (AccessorProperty (Some getter) _ _ _) => GetCallsGetter getter
  | Some (AccessorProperty None _ _ _) => GetValue VUndefined
  end.

End Props.

(** ** The window object and [_init] (lines 9-75) *)

Module Bridge.

Import Props.

Record Rectangle : Type := { x : Z; y : Z; width : Z; height : Z }.

(** The native window: the state the script queries and the calls it
    makes on it. *)
Record Native : Type := {
  n_bounds : Rectangle;
  n_visible : bool;
  n_minimized : bool;
  n_fullscreen : bool;
  n_documentEdited : bool;
  n_kiosk : bool;
  n_contentView : bool;   (* a WebContentsView over webContents is set *)
  n_setBounds_calls : list (gmap string jsval * list jsval)
}.

(** Listeners this file registers on the content surface and on the
    window. *)
Inductive WcListener : Type :=
  | FocusOnLoadUrl.            (* function () { this.focus() }, l.36-38 *)

Inductive WinListener : Type :=
  | RedirectBlur               (* lines 41-43 *)
  | RedirectFocus              (* lines 44-46 *)
  | VisibilityChanged.         (* lines 50-57 *)

Global Instance WcListener_eq_dec : EqDecision WcListener.
Proof. solve_decision. Defined.

(** The content surface: its listener table (event, registered with
    [once], listener), the events emitted on it, the calls of its
    [focus()] and its [devToolsWebContents] property. *)
Record WebContents : Type := {
  wc_listeners : list (string * bool * WcListener);
  wc_emitted : list (string * list jsval);
  wc_focus_calls : nat;
  wc_devToolsWebContents : jsval
}.

(** The window [this], with the closure variable [isVisible] of line 49
    and the events emitted on [app]. *)
Record BrowserWindow : Type := {
  native : Native;
  webContents : WebContents;
  own : gmap string Property;
  listeners : list (string * WinListener);
  closure_isVisible : bool;
  app_emitted : list (string * jsval)
}.

(** *** Field updates *)

Definition with_native (n : Native) (w : BrowserWindow) : BrowserWindow :=
  {| native := n; webContents := webContents w; own := own w;
     listeners := listeners w; closure_isVisible := closure_isVisible w;
     app_emitted := app_emitted w |}.

Definition with_webContents (wc : WebContents) (w : BrowserWindow)
  : BrowserWindow :=
  {| native := native w; webContents := wc; own := own w;
     listeners := listeners w; closure_isVisible := closure_isVisible w;
     app_emitted := app_emitted w |}.

Definition with_own (tbl : gmap string Property) (w : BrowserWindow)
  : BrowserWindow :=
  {| native := native w; webContents := webContents w; own := tbl;
     listeners := listeners w; closure_isVisible := closure_isVisible w;
     app_emitted := app_emitted w |}.

Definition with_listeners (ls : list (string * WinListener))
    (w : BrowserWindow) : BrowserWindow :=
  {| native := native w; webContents := webContents w; own := own w;
     listeners := ls; closure_isVisible := closure_isVisible w;
     app_emitted := app_emitted w |}.

Definition with_closure_isVisible (b : bool) (w : BrowserWindow)
  : BrowserWindow :=
  {| native := native w; webContents := webContents w; own := own w;
     listeners := listeners w; closure_isVisible := b;
     app_emitted := app_emitted w |}.

Definition with_app_emitted (l : list (string * jsval)) (w : BrowserWindow)
  : BrowserWindow :=
  {| native := native w; webContents := webContents w; own := own w;
     listeners := listeners w; closure_isVisible := closure_isVisible w;
     app_emitted := l |}.

(** *** Native methods the script calls *)

Definition isVisible (w : BrowserWindow) : bool := n_visible (native w).
Definition isMinimized (w : BrowserWindow) : bool := n_minimized (native w).
Definition isFullscreen (w : BrowserWindow) : bool := n_fullscreen (native w).
Definition isKiosk (w : BrowserWindow) : bool := n_kiosk (native w).

(** [getBounds()] returns a fresh object with the four fields. *)
Definition getBounds (w : BrowserWindow) : gmap string jsval :=
  let b := n_bounds (native w) in
  <["x" := VNum (x b)]> (<["y" := VNum (y b)]>
    (<["width" := VNum (width b)]> (<["height" := VNum (height b)]> ∅))).

(** The native [setBounds], captured as [nativeSetBounds] on line 19:
    the call and its arguments are recorded. *)
Definition nativeSetBounds (bounds : gmap string jsval) (opts : list jsval)
    (w : BrowserWindow) : BrowserWindow :=
  let n := native w in
  with_native
    {| n_bounds := n_bounds n; n_visible := n_visible n;
       n_minimized := n_minimized n; n_fullscreen := n_fullscreen n;
       n_documentEdited := n_documentEdited n; n_kiosk := n_kiosk n;
       n_contentView := n_contentView n;
       n_setBounds_calls := n_setBounds_calls n ++ [(bounds, opts)] |}
    w.

Definition setContentView (w : BrowserWindow) : BrowserWindow :=
  let n := native w in
  with_native
    {| n_bounds := n_bounds n; n_visible := n_visible n;
       n_minimized := n_minimized n; n_fullscreen := n_fullscreen n;
       n_documentEdited := n_documentEdited n; n_kiosk := n_kiosk n;
       n_contentView := true;
       n_setBounds_calls := n_setBounds_calls n |}
    w.

Definition setDocumentEdited (edited : bool) (w : BrowserWindow)
  : BrowserWindow :=
  let n := native w in
  with_native
    {| n_bounds := n_bounds n; n_visible := n_visible n;
       n_minimized := n_minimized n; n_fullscreen := n_fullscreen n;
       n_documentEdited := edited; n_kiosk := n_kiosk n;
       n_contentView := n_contentView n;
       n_setBounds_calls := n_setBounds_calls n |}
    w.

Definition setKiosk (kiosk : bool) (w : BrowserWindow) : BrowserWindow :=
  let n := native w in
  with_native
    {| n_bounds := n_bounds n; n_visible := n_visible n;
       n_minimized := n_minimized n; n_fullscreen := n_fullscreen n;
       n_documentEdited := n_documentEdited n; n_kiosk := kiosk;
       n_contentView := n_contentView n;
       n_setBounds_calls := n_setBounds_calls n |}
    w.

(** The native layer changes what [isVisible()] and [isMinimized()]
    report. *)
Definition native_observe (visible minimized : bool) (w : BrowserWindow)
  : BrowserWindow :=
  let n := native w in
  with_native
    {| n_bounds := n_bounds n; n_visible := visible;
       n_minimized := minimized; n_fullscreen := n_fullscreen n;
       n_documentEdited := n_documentEdited n; n_kiosk := n_kiosk n;
       n_contentView := n_contentView n;
       n_setBounds_calls := n_setBounds_calls n |}
    w.

(** *** The overridden [setBounds] (lines 20-26)

    [{...this.getBounds(), ...bounds}] copies the fields of [getBounds()]
    and then those of [bounds], so a field of [bounds] wins; the union of
    finite maps prefers its left operand. *)
Definition setBounds (bounds : gmap string jsval) (opts : list jsval)
    (w : BrowserWindow) : BrowserWindow :=
  let bounds := bounds ∪ getBounds w in
  nativeSetBounds bounds opts w.

(** *** The event emitter of the content surface *)

Definition wc_with_listeners (ls : list (string * bool * WcListener))
    (wc : WebContents) : WebContents :=
  {| wc_listeners := ls; wc_emitted := wc_emitted wc;
     wc_focus_calls := wc_focus_calls wc;
     wc_devToolsWebContents := wc_devToolsWebContents wc |}.

(** [webContents.focus()]. *)
Definition wc_focus (wc : WebContents) : WebContents :=
  {| wc_listeners := wc_listeners wc; wc_emitted := wc_emitted wc;
     wc_focus_calls := S (wc_focus_calls wc);
     wc_devToolsWebContents := wc_devToolsWebContents wc |}.

(** [webContents.once(event, listener)]. *)
Definition wc_once (event : string) (l : WcListener) (wc : WebContents)
  : WebContents :=
  wc_with_listeners (wc_listeners wc ++ [(event, true, l)]) wc.

(** Removes the first entry equal to [entry]. *)
Fixpoint remove_first (entry : string * bool * WcListener)
    (ls : list (string * bool * WcListener))
  : list (string * bool * WcListener) :=
  match ls with
  | [] => []
  | e :: rest =>
      if decide (e = entry) then rest else e :: remove_first entry rest
  end.

(** The body of a listener; [this] is the emitter, so [this.focus()] of
    line 37 is the content surface's [focus]. *)
Definition wc_call_listener (l : WcListener) (wc : WebContents)
  : WebContents :=
  match l with
  | FocusOnLoadUrl => wc_focus wc
  end.

(** One listener of the snapshot is invoked; a [once] listener is removed
    from the table before its body runs. *)
Definition wc_invoke (entry : string * bool * WcListener)
    (wc : WebContents) : WebContents :=
  let '(_, once, l) := entry in
  let wc := if once
            then wc_with_listeners (remove_first entry (wc_listeners wc)) wc
            else wc in
  wc_call_listener l wc.

(** [webContents.emit(event, ...args)]: the listeners registered for
    [event] at the time of the call run in registration order. *)
Definition wc_emit (event : string) (args : list jsval) (wc : WebContents)
  : WebContents :=
  let snapshot :=
    List.filter (fun e => bool_decide (e.1.1 = event)) (wc_listeners wc) in
  let wc :=
    {| wc_listeners := wc_listeners wc;
       wc_emitted := wc_emitted wc ++ [(event, args)];
       wc_focus_calls := wc_focus_calls wc;
       wc_devToolsWebContents := wc_devToolsWebContents wc |} in
  foldl (fun wc entry => wc_invoke entry wc) wc snapshot.

(** *** The listeners of the window *)

(** [app.emit(name, event, this)]. *)
Definition app_emit (name : string) (event : jsval) (w : BrowserWindow)
  : BrowserWindow :=
  with_app_emitted (app_emitted w ++ [(name, event)]) w.

(** [visibilityChanged], lines 50-57. *)
Definition visibilityChanged (w : BrowserWindow) : BrowserWindow :=
  let newState := isVisible w && negb (isMinimized w) in
  if bool_decide (closure_isVisible w ≠ newState) then
    let w := with_closure_isVisible newState w in
    let visibilityState :=
      if closure_isVisible w then "visible" else "hidden" in
    with_webContents
      (wc_emit "-window-visibility-change" [VStr visibilityState]
         (webContents w))
      w
  else w.

Definition call_listener (l : WinListener) (args : list jsval)
    (w : BrowserWindow) : BrowserWindow :=
  match l with
  | RedirectBlur => app_emit "browser-window-blur" (hd VUndefined args) w
  | RedirectFocus => app_emit "browser-window-focus" (hd VUndefined args) w
  | VisibilityChanged => visibilityChanged w
  end.

(** [this.on(event, listener)]. *)
Definition on (event : string) (l : WinListener) (w : BrowserWindow)
  : BrowserWindow :=
  with_listeners (listeners w ++ [(event, l)]) w.

(** [this.emit(event, ...args)]. *)
Definition emit (event : string) (args : list jsval) (w : BrowserWindow)
  : BrowserWindow :=
  let snapshot :=
    List.filter (fun e => bool_decide (e.1 = event)) (listeners w) in
  foldl (fun w e => call_listener e.2 args w) w snapshot.

Definition visibilityEvents : list string :=
  ["show"; "hide"; "minimize"; "maximize"; "restore"].

(** The accessor defined on lines 68-74; a missing [set] is
    [undefined]. *)
Definition devToolsWebContents_descriptor : PropertyDescriptor :=
  {| d_value := None; d_writable := None;
     d_get := Some (Some F_getDevToolsWebContents); d_set := None;
     d_enumerable := Some true; d_configurable := Some false |}.

(** The body of that getter: [this.webContents.devToolsWebContents]. *)
Definition getDevToolsWebContents (this : BrowserWindow) : jsval :=
  wc_devToolsWebContents (webContents this).

(** The empty event of [createEmpty()], line 65. *)
Definition createEmpty : jsval := VObj 0.

(** [BrowserWindow.prototype._init], lines 9-75, in statement order. The
    parent's [_init] (line 11) is not part of this file. *)
Definition _init (this : BrowserWindow) : Completion BrowserWindow :=
  let this := setContentView this in
  (* this.setBounds = (bounds, ...opts) => ... ; an assignment creates an
     ordinary data property *)
  let this :=
    with_own (<["setBounds" :=
                 DataProperty (VFun F_setBoundsOverride) true true true]>
                (own this)) this in
  let this :=
    with_webContents (wc_once "load-url" FocusOnLoadUrl (webContents this))
      this in
  let this := on "blur" RedirectBlur this in
  let this := on "focus" RedirectFocus this in
  let this :=
    with_closure_isVisible (isVisible this && negb (isMinimized this))
      this in
  let this :=
    foldl (fun w event => on event VisibilityChanged w) this
      visibilityEvents in
  let this := app_emit "browser-window-created" createEmpty this in
  match defineProperty "devToolsWebContents"
          devToolsWebContents_descriptor (own this) with
  | Return tbl => Return (with_own tbl this)
  | Throw e => Throw e
  end.

(** *** Accessor properties of the prototype (lines 94-102) *)

Definition isDocumentEdited (w : BrowserWindow) : bool :=
  n_documentEdited (native w).

(** [kiosk], lines 94-97. *)
Definition get_kiosk (this : BrowserWindow) : bool := isKiosk this.
Definition set_kiosk (kiosk : bool) (this : BrowserWindow)
  : BrowserWindow := setKiosk kiosk this.

(** [documentEdited], lines 99-102. *)
Definition get_documentEdited (this : BrowserWindow) : bool :=
  isFullscreen this.
Definition set_documentEdited (edited : bool) (this : BrowserWindow)
  : BrowserWindow := setDocumentEdited edited this.

(** *** The life of a window

    The native constructor produces a window with no script-side state and
    calls [_init] on it. *)
Definition construct (n : Native) (devTools : jsval) : BrowserWindow :=
  {| native := n;
     webContents :=
       {| wc_listeners := []; wc_emitted := []; wc_focus_calls := 0;
          wc_devToolsWebContents := devTools |};
     own := ∅; listeners := []; closure_isVisible := false;
     app_emitted := [] |}.

(** What can happen to a window afterwards: the native layer delivers an
    event on the window ([visible] and [minimized] are what the native
    predicates report while the listeners run), something emits an event
    on the content surface, the surface's developer-tools surface changes,
    or client code redefines or deletes an own property of the window. *)
Inductive Action : Type :=
  | NativeEvent (event : string) (args : list jsval)
                (visible minimized : bool)
  | ContentEvent (event : string) (args : list jsval)
  | DevToolsChange (v : jsval)
  | ClientDefine (name : string) (d : PropertyDescriptor)
  | ClientDelete (name : string).

Definition step (a : Action) (w : BrowserWindow) : BrowserWindow :=
  match a with
  | NativeEvent event args visible minimized =>
      emit event args (native_observe visible minimized w)
  | ContentEvent event args =>
      with_webContents (wc_emit event args (webContents w)) w
  | DevToolsChange v =>
      let wc := webContents w in
      with_webContents
        {| wc_listeners := wc_listeners wc; wc_emitted := wc_emitted wc;
           wc_focus_calls := wc_focus_calls wc;
           wc_devToolsWebContents := v |}
        w
  | ClientDefine name d =>
      match defineProperty name d (own w) with
      | Return tbl => with_own tbl w
      | Throw _ => w
      end
  | ClientDelete name => with_own (deleteProperty name (own w)).2 w
  end.

Fixpoint run (acts : list Action) (w : BrowserWindow) : BrowserWindow :=
  match acts with
  | [] => w
  | a :: rest => run rest (step a w)
  end.

(** The window after construction and [_init]. *)
Definition initial (n : Native) (devTools : jsval) : BrowserWindow :=
  match _init (construct n devTools) with
  | Return w => w
  | Throw _ => construct n devTools
  end.

(** *** Observations used in the statements *)

(** The listener table that [_init] leaves on the window. *)
Definition init_listeners : list (string * WinListener) :=
  [("blur", RedirectBlur); ("focus", RedirectFocus);
   ("show", VisibilityChanged); ("hide", VisibilityChanged);
   ("minimize", VisibilityChanged); ("maximize", VisibilityChanged);
   ("restore", VisibilityChanged)].

(** The one-shot subscription of line 36. *)
Definition load_url_subscription : string * bool * WcListener :=
  ("load-url", true, FocusOnLoadUrl).

(** The own property that lines 68-74 create. *)
Definition devToolsWebContents_property : Property :=
  AccessorProperty (Some F_getDevToolsWebContents) None true false.

(** What every state of an initialised window satisfies: the listeners of
    [_init] are installed, the accessor is in place, and the one-shot
    subscription is either still pending with no focus call made, or gone
    with exactly one made. *)
Record installed (w : BrowserWindow) : Prop := {
  inst_listeners : listeners w = init_listeners;
  inst_own :
    own w !! "devToolsWebContents" = Some devToolsWebContents_property;
  inst_once :
    (wc_listeners (webContents w) = [load_url_subscription]
     ∧ wc_focus_calls (webContents w) = 0)
    ∨ (wc_listeners (webContents w) = []
       ∧ wc_focus_calls (webContents w) = 1)
}.

(** The value the tracker derives from the native predicates. *)
Definition effectively_visible (w : BrowserWindow) : bool :=
  isVisible w && negb (isMinimized w).

(** The payloads of the visibility notifications sent to the content
    surface so far. *)
Definition notifications (w : BrowserWindow) : list (list jsval) :=
  snd <$> List.filter
            (fun e => bool_decide (e.1 = "-window-visibility-change"))
            (wc_emitted (webContents w)).

Definition is_visibility_event (a : Action) : bool :=
  match a with
  | NativeEvent event _ _ _ => bool_decide (event ∈ visibilityEvents)
  | _ => false
  end.

Definition is_load_url (a : Action) : bool :=
  match a with
  | ContentEvent event _ => bool_decide (event = "load-url")
  | _ => false
  end.

(** The action is a window event during which the derived value is [c]. *)
Definition observes (c : bool) (a : Action) : Prop :=
  match a with
  | NativeEvent _ _ visible minimized => visible && negb minimized = c
  | _ => False
  end.

(** The notification payload for a derived value. *)
Definition payload (state : bool) : list jsval :=
  [VStr (if state then "visible" else "hidden")].

(** A native window with bounds (0, 0, 800, 600). *)
Definition sample_native (visible minimized : bool) : Native :=
  {| n_bounds := {| x := 0; y := 0; width := 800; height := 600 |};
     n_visible := visible; n_minimized := minimized;
     n_fullscreen := false; n_documentEdited := false; n_kiosk := false;
     n_contentView := false; n_setBounds_calls := [] |}.

(** The derived value read by the most recent visibility event of
    [acts], or [initial] when there is none. *)
Fixpoint last_reading (initial : bool) (acts : list Action) : bool :=
  match acts with
  | [] => initial
  | NativeEvent event _ visible minimized :: rest =>
      if bool_decide (event ∈ visibilityEvents)
      then last_reading (visible && negb minimized) rest
      else last_reading initial rest
  | _ :: rest => last_reading initial rest
  end.

End Bridge.

(** ** Helpers delegated to the content surface (lines 191-243) *)

Module Facade.

Inductive Operation : Type :=
  | loadURL | getURL | loadFile | reload | send | openDevTools
  | closeDevTools | isDevToolsOpened | isDevToolsFocused | toggleDevTools
  | inspectElement | inspectSharedWorker | inspectServiceWorker
  | showDefinitionForSelection | capturePage | setBackgroundThrottling.

(** The method of the content surface an operation names. *)
Definition method (op : Operation) : string :=
  match op with
  | loadURL => "loadURL" | getURL => "getURL" | loadFile => "loadFile"
  | reload => "reload" | send => "send" | openDevTools => "openDevTools"
  | closeDevTools => "closeDevTools"
  | isDevToolsOpened => "isDevToolsOpened"
  | isDevToolsFocused => "isDevToolsFocused"
  | toggleDevTools => "toggleDevTools"
  | inspectElement => "inspectElement"
  | inspectSharedWorker => "inspectSharedWorker"
  | inspectServiceWorker => "inspectServiceWorker"
  | showDefinitionForSelection => "showDefinitionForSelection"
  | capturePage => "capturePage"
  | setBackgroundThrottling => "setBackgroundThrottling"
  end.

Section Surface.

(** The content surface bound to the window: its state, and what a call
    of one of its methods with given arguments does and yields. *)
Variable Surface : Type.
Variable invoke :
  string → list jsval → Surface → Completion jsval * Surface.

(** The window-level helper [op] called with [args]; one case per
    method of the object literal of lines 191-243. *)
Definition call (op : Operation) (args : list jsval) (wc : Surface)
  : Completion jsval * Surface :=
  match op with
  | loadURL => invoke "loadURL" args wc
  | getURL => invoke "getURL" [] wc
  | loadFile => invoke "loadFile" args wc
  | reload => invoke "reload" args wc
  | send => invoke "send" args wc
  | openDevTools => invoke "openDevTools" args wc
  | closeDevTools => invoke "closeDevTools" [] wc
  | isDevToolsOpened => invoke "isDevToolsOpened" [] wc
  | isDevToolsFocused => invoke "isDevToolsFocused" [] wc
  | toggleDevTools => invoke "toggleDevTools" [] wc
  | inspectElement => invoke "inspectElement" args wc
  | inspectSharedWorker => invoke "inspectSharedWorker" [] wc
  | inspectServiceWorker => invoke "inspectServiceWorker" [] wc
  | showDefinitionForSelection =>
      invoke "showDefinitionForSelection" [] wc
  | capturePage => invoke "capturePage" args wc
  | setBackgroundThrottling =>
      (* one named parameter, no [return] *)
      let allowed := hd VUndefined args in
      match invoke "setBackgroundThrottling" [allowed] wc with
      | (Return _, wc) => (Return VUndefined, wc)
      | (Throw e, wc) => (Throw e, wc)
      end
  end.

End Surface.

(** The operations declared with a rest parameter that is passed on, and
    those declared without parameters. *)
Definition variadic : list Operation :=
  [loadURL; loadFile; reload; send; openDevTools; inspectElement;
   capturePage].

Definition nullary : list Operation :=
  [closeDevTools; isDevToolsOpened; isDevToolsFocused; toggleDevTools;
   inspectSharedWorker; inspectServiceWorker; showDefinitionForSelection].

Definition facade : list Operation :=
  [loadURL; getURL; loadFile; reload; send; openDevTools; closeDevTools;
   isDevToolsOpened; isDevToolsFocused; toggleDevTools; inspectElement;
   inspectSharedWorker; inspectServiceWorker; showDefinitionForSelection;
   capturePage; setBackgroundThrottling].

(** A surface that records every call and returns its arguments' count;
    used to observe what a helper passes on. *)
Definition recording_invoke (m : string) (args : list jsval)
    (log : list (string * list jsval))
  : Completion jsval * list (string * list jsval) :=
  (Return (VNum (Z.of_nat (length args))), log ++ [(m, args)]).

End Facade.


(** ** The query by secondary view (lines 182-188) *)

Module Views.

Import Registry.

(** [a === b] on the values modelled here: primitives by value, objects
    and functions by identity. *)
Definition strict_equal (a b : jsval) : bool := bool_decide (a = b).

Section FromBrowserView.

(** The native [getBrowserView]; it is not part of this file. *)
Variable getBrowserView : Window → jsval.

(** [BrowserWindow.fromBrowserView], lines 182-188. *)
Definition fromBrowserView (toplevel : list Window) (browserView : jsval)
  : Completion (option Window) :=
  for_of_first
    (fun window =>
       Return (strict_equal (getBrowserView window) browserView))
    (getAllWindows toplevel).

End FromBrowserView.

(** The predicate that scan decides. *)
Definition shows (getBrowserView : Window → jsval) (browserView : jsval)
    (w : Window) : bool :=
  strict_equal (getBrowserView w) browserView.

(** Window 1 has the view with handle 7, the other windows have none. *)
Definition sample_views (w : Window) : jsval :=
  if bool_decide (id w = 1) then VObj 7 else VNull.

(** A focused window whose content surface is gone. *)
Definition W_focused_detached : Window :=
  {| constructor_name := "BrowserWindow"; id := 6; isFocused := true;
     webContents := RUndefined |}.

(** The scan of [getFocusedWindow] reaches a window it cannot test: every
    window before it is tested without error and is no focus holder, and
    the window itself is not focused and has no content surface. *)
Definition blocked_scan (ws : list Window) : Prop :=
  ∃ before w after,
    ws = before ++ w :: after
    ∧ Forall (fun v => bound v ∧ focus_holder v = false) before
    ∧ isFocused w = false ∧ is_absent (webContents w) = true.

(** No other window of [ws] has a content surface with the identity of
    [wc]. *)
Definition sole_host (ws : list Window) (w : Window) (wc : WebContents)
  : Prop :=
  ∀ v wc', v ∈ ws → webContents v = RObj wc' → wc_id wc' = wc_id wc → v = w.

End Views.

(** ** Traces of a window's life *)

Module Traces.

Import Bridge.

(** What the listeners of lines 41-46 send to [app] for an action. *)
Definition redirected (a : Action) : list (string * jsval) :=
  match a with
  | NativeEvent event args _ _ =>
      if bool_decide (event = "blur")
      then [("browser-window-blur", hd VUndefined args)]
      else if bool_decide (event = "focus")
      then [("browser-window-focus", hd VUndefined args)]
      else []
  | _ => []
  end.

(** [k] payloads of alternating polarity, the first one for [first]. *)
Fixpoint alternating (first : bool) (k : nat) : list (list jsval) :=
  match k with
  | 0 => []
  | S k => payload first :: alternating (negb first) k
  end.

(** Somebody other than the tracker emits the notification event on the
    content surface. *)
Definition foreign_notification (a : Action) : bool :=
  match a with
  | ContentEvent event _ => bool_decide (event = "-window-visibility-change")
  | _ => false
  end.

(** The action is one of the five visibility events, delivered while the
    native predicates report [visible] and [minimized]. *)
Definition in_burst (visible minimized : bool) (a : Action) : Prop :=
  match a with
  | NativeEvent event _ v m =>
      event ∈ visibilityEvents ∧ v = visible ∧ m = minimized
  | _ => False
  end.

(** The four fields of a bounds object. *)
Definition bounds_fields : list string := ["x"; "y"; "width"; "height"].

End Traces.

(** * Properties *)

(** ** Registry queries *)

Module RegistryFacts.

Import Registry.

(** A scan whose test never throws returns what [find] returns. *)
Lemma for_of_first_find (test : Window → Completion bool) (p : Window → bool)
    (ws : list Window) :
  Forall (fun w => test w = Return (p w)) ws →
  for_of_first test ws = Return (List.find p ws).
Proof.
  induction 1 as [|w ws Hw _ IH]; simpl; [done|].
  rewrite Hw. destruct (p w); [done|apply IH].
Qed.

(** [find] returns the first match in list order. *)
Lemma find_first_match (p : Window → bool) (ws : list Window) :
  first_match p ws (List.find p ws).
Proof.
  induction ws as [|w ws IH]; simpl; [constructor|].
  destruct (p w) eqn:Hp.
  - exists [], ws. by repeat split.
  - destruct (List.find p ws) as [v|]; simpl in *.
    + destruct IH as (before & after & -> & Hv & Hbefore).
      exists (w :: before), after. repeat split; [done|by constructor].
    + by constructor.
Qed.

(** Every window of the snapshot is of the queried kind. *)
Lemma getAllWindows_kind (toplevel : list Window) :
  Forall (fun w => constructor_name w = "BrowserWindow")
    (getAllWindows toplevel).
Proof.
  apply Forall_forall. intros w Hw. unfold getAllWindows in Hw.
  apply list_elem_of_In, filter_In in Hw as [_ Hw]. simpl in Hw.
  by apply bool_decide_eq_true in Hw.
Qed.

Lemma getAllWindows_app (l1 l2 : list Window) :
  getAllWindows (l1 ++ l2) = getAllWindows l1 ++ getAllWindows l2.
Proof. apply List.filter_app. Qed.

(** The test of [fromWebContents] never throws. *)
Lemma fromWebContents_find equal (toplevel : list Window) handle :
  fromWebContents equal toplevel handle
  = Return (List.find (hosts equal handle) (getAllWindows toplevel)).
Proof.
  apply for_of_first_find, Forall_forall. intros w _. unfold hosts.
  by destruct (webContents w).
Qed.

Lemma find_skip (p : Window → bool) (l1 l2 : list Window) (w : Window) :
  p w = false → List.find p (l1 ++ w :: l2) = List.find p (l1 ++ l2).
Proof.
  intros Hw. induction l1 as [|v l1 IH]; simpl.
  - by rewrite Hw.
  - destruct (p v); [done|apply IH].
Qed.

(** Under the data model's invariant, that is on a snapshot whose windows
    all have their content surface, [getFocusedWindow] returns, without
    throwing, the first window of [getAllWindows] in enumeration order that
    is focused or whose developer tools are focused, and [null] when there
    is none. *)
Theorem getFocusedWindow_first_focus_holder (toplevel : list Window) :
  Forall bound (getAllWindows toplevel) →
  getFocusedWindow toplevel
  = Return (List.find focus_holder (getAllWindows toplevel))
  ∧ first_match focus_holder (getAllWindows toplevel)
      (List.find focus_holder (getAllWindows toplevel)).
Proof.
  intros Hbound. split; [|apply find_first_match].
  apply for_of_first_find.
  eapply Forall_impl; [exact Hbound|].
  intros w Hw. unfold bound, focus_holder, isDevToolsFocused in *.
  destruct (isFocused w); [done|].
  by destruct (webContents w).
Qed.

(** Over W1 (not focused), W2 (focused) and W3 (developer tools
    focused), in that order, the query returns W2. *)
Lemma getFocusedWindow_scenario :
  Forall bound (getAllWindows [W1; W2; W3])
  ∧ getFocusedWindow [W1; W2; W3] = Return (Some W2).
Proof.
  assert (H : Forall bound (getAllWindows [W1; W2; W3])).
  { repeat constructor. }
  split; [exact H|].
  exact (proj1 (getFocusedWindow_first_focus_holder [W1; W2; W3] H)).
Defined.

(** Top-level windows of another kind are not part of the snapshot: a
    focused one standing first is passed over, and its missing content
    surface is never read. *)
Example getFocusedWindow_ignores_other_kinds :
  getFocusedWindow [W_plain; W1; W3] = Return (Some W3)
  ∧ fromId (RObj W_plain) = None
  ∧ fromId (RObj W1) = Some W1
  ∧ fromId RNull = None.
Proof. by repeat split. Qed.

(** Without the content surface the unguarded read in [isDevToolsFocused]
    throws. *)
Example getFocusedWindow_detached_throws :
  ∃ e, getFocusedWindow [W_detached; W2] = Throw e.
Proof. by eexists. Qed.

(** C6. [fromWebContents] always returns and never throws: its result is
    the first window of the snapshot, in enumeration order, that has a
    content surface which [equal] identifies with the handle, and [null]
    when the snapshot has no such window. *)
Theorem fromWebContents_first_host_or_null
    (equal : WebContents → WebContents → bool)
    (toplevel : list Window) (handle : WebContents) :
  fromWebContents equal toplevel handle
  = Return (List.find (hosts equal handle) (getAllWindows toplevel))
  ∧ first_match (hosts equal handle) (getAllWindows toplevel)
      (List.find (hosts equal handle) (getAllWindows toplevel))
  ∧ (Forall (fun w => hosts equal handle w = false) (getAllWindows toplevel)
     ↔ fromWebContents equal toplevel handle = Return None).
Proof.
  split; [apply fromWebContents_find|].
  split; [apply find_first_match|].
  rewrite fromWebContents_find. split.
  - intros Hnone. f_equal.
    destruct (List.find _ _) as [w|] eqn:Hfind; [|done].
    apply find_some in Hfind as [Hin Hw].
    rewrite Forall_forall in Hnone.
    apply list_elem_of_In, Hnone in Hin. congruence.
  - intros [= Hfind]. apply Forall_forall. intros w Hin.
    apply list_elem_of_In in Hin.
    exact (find_none _ _ Hfind w Hin).
Qed.

(** C9. A window whose content surface is [null] or [undefined] does not
    make [fromWebContents] throw and does not change its result: the query
    over a registry that contains such a window returns what it returns
    over the registry without it, so a later matching window is still
    found. *)
Theorem fromWebContents_skips_absent_surface
    (equal : WebContents → WebContents → bool)
    (before after : list Window) (w : Window) (handle : WebContents) :
  is_absent (webContents w) = true →
  fromWebContents equal (before ++ w :: after) handle
  = fromWebContents equal (before ++ after) handle
  ∧ ∃ r, fromWebContents equal (before ++ w :: after) handle = Return r.
Proof.
  intros Hw. rewrite !fromWebContents_find. split; [|eauto].
  f_equal. rewrite !getAllWindows_app. simpl.
  destruct (bool_decide _); [|done].
  apply find_skip. unfold hosts. by destruct (webContents w).
Qed.

(** A window without content surface stands before the window that hosts
    the handle: the query returns that later window. *)
Lemma fromWebContents_skips_absent_surface_witness :
  is_absent (webContents W_detached) = true
  ∧ fromWebContents same_id [W1; W_detached; W3]
      {| wc_id := 13; wc_isDevToolsFocused := true |}
    = Return (Some W3).
Proof.
  split; [reflexivity|].
  etrans.
  - exact (proj1 (fromWebContents_skips_absent_surface same_id [W1] [W3]
                    W_detached {| wc_id := 13; wc_isDevToolsFocused := true |}
                    eq_refl)).
  - reflexivity.
Defined.

End RegistryFacts.


(** ** The event bridge and the visibility tracker *)

Module BridgeFacts.

Import Props Bridge.

(** *** The event emitter of the content surface *)

Lemma wc_emit_pending event args wc :
  wc_listeners wc = [load_url_subscription] →
  wc_emit event args wc
  = if bool_decide (event = "load-url")
    then {| wc_listeners := [];
            wc_emitted := wc_emitted wc ++ [(event, args)];
            wc_focus_calls := S (wc_focus_calls wc);
            wc_devToolsWebContents := wc_devToolsWebContents wc |}
    else {| wc_listeners := [load_url_subscription];
            wc_emitted := wc_emitted wc ++ [(event, args)];
            wc_focus_calls := wc_focus_calls wc;
            wc_devToolsWebContents := wc_devToolsWebContents wc |}.
Proof.
  destruct wc as [ls log calls dev]; simpl. intros ->.
  unfold wc_emit, load_url_subscription; simpl.
  repeat case_bool_decide; by simplify_eq.
Qed.

Lemma wc_emit_spent event args wc :
  wc_listeners wc = [] →
  wc_emit event args wc
  = {| wc_listeners := [];
       wc_emitted := wc_emitted wc ++ [(event, args)];
       wc_focus_calls := wc_focus_calls wc;
       wc_devToolsWebContents := wc_devToolsWebContents wc |}.
Proof.
  destruct wc as [ls log calls dev]; simpl. by intros ->.
Qed.

(** *** [_init] on a fresh window *)

Lemma init_returns n dev :
  _init (construct n dev) = Return (initial n dev).
Proof.
  unfold initial, _init, defineProperty; simpl.
  by rewrite lookup_insert_ne, lookup_empty.
Qed.

Lemma initial_closure n dev :
  closure_isVisible (initial n dev) = effectively_visible (construct n dev).
Proof.
  unfold initial, _init, defineProperty; simpl.
  by rewrite lookup_insert_ne, lookup_empty.
Qed.

Lemma initial_installed n dev : installed (initial n dev).
Proof.
  unfold initial, _init, defineProperty; simpl.
  rewrite lookup_insert_ne, lookup_empty by done; simpl.
  split; simpl.
  - done.
  - by rewrite lookup_insert_eq.
  - by left.
Qed.

Lemma initial_quiet n dev :
  notifications (initial n dev) = []
  ∧ wc_focus_calls (webContents (initial n dev)) = 0
  ∧ wc_listeners (webContents (initial n dev)) = [load_url_subscription].
Proof.
  unfold initial, _init, defineProperty; simpl.
  by rewrite lookup_insert_ne, lookup_empty.
Qed.

(** *** One run of [visibilityChanged] *)

Lemma visibilityChanged_spec w :
  (wc_listeners (webContents w) = [load_url_subscription]
   ∨ wc_listeners (webContents w) = []) →
  visibilityChanged w
  = if bool_decide (closure_isVisible w ≠ effectively_visible w)
    then
      let wc := webContents w in
      with_webContents
        {| wc_listeners := wc_listeners wc;
           wc_emitted :=
             wc_emitted wc ++
             [("-window-visibility-change",
               [VStr (if effectively_visible w then "visible" else "hidden")])];
           wc_focus_calls := wc_focus_calls wc;
           wc_devToolsWebContents := wc_devToolsWebContents wc |}
        (with_closure_isVisible (effectively_visible w) w)
    else w.
Proof.
  intros Hls. unfold visibilityChanged, effectively_visible.
  case_bool_decide; [|done]. simpl. f_equal.
  destruct Hls as [Hls|Hls].
  - rewrite wc_emit_pending by done. simpl. by rewrite Hls.
  - rewrite wc_emit_spent by done. simpl. by rewrite Hls.
Qed.

(** *** Delivery of a window event to the installed listeners *)

Lemma emit_installed event args w :
  listeners w = init_listeners →
  emit event args w
  = if bool_decide (event ∈ visibilityEvents) then visibilityChanged w
    else if bool_decide (event = "blur")
         then app_emit "browser-window-blur" (hd VUndefined args) w
    else if bool_decide (event = "focus")
         then app_emit "browser-window-focus" (hd VUndefined args) w
    else w.
Proof.
  intros Hls. unfold emit. rewrite Hls. unfold init_listeners; simpl.
  destruct (decide (event ∈ visibilityEvents)) as [Hin|Hout].
  - rewrite (bool_decide_eq_true_2 _ Hin).
    unfold visibilityEvents in Hin. set_unfold.
    destruct Hin as [->|[->|[->|[->|[->|[]]]]]]; done.
  - rewrite (bool_decide_eq_false_2 _ Hout).
    unfold visibilityEvents in Hout. set_unfold.
    repeat case_bool_decide; simplify_eq; simpl; try done;
      exfalso; apply Hout; eauto 10.
Qed.

(** *** The accessor cannot be changed *)

Lemma apply_descriptor_fixed d :
  is_accessor_descriptor d && is_data_descriptor d = false →
  change_allowed d devToolsWebContents_property = true →
  apply_descriptor d devToolsWebContents_property
  = devToolsWebContents_property.
Proof.
  destruct d as [[v|] [wr|] [g|] [s|] [e|] [c|]];
    unfold change_allowed, apply_descriptor, is_accessor_descriptor,
      is_data_descriptor, agrees, devToolsWebContents_property; simpl;
    intros Hmix Hok; try discriminate;
    repeat (case_bool_decide; simplify_eq; simpl in *; try discriminate);
    try done; by destruct c.
Qed.

Lemma defineProperty_keeps_accessor name d tbl tbl' :
  tbl !! "devToolsWebContents" = Some devToolsWebContents_property →
  defineProperty name d tbl = Return tbl' →
  tbl' !! "devToolsWebContents" = Some devToolsWebContents_property.
Proof.
  intros Hacc. unfold defineProperty.
  destruct (is_accessor_descriptor d && is_data_descriptor d) eqn:Hmix;
    [done|].
  destruct (decide (name = "devToolsWebContents")) as [->|Hne].
  - rewrite Hacc.
    destruct (change_allowed d devToolsWebContents_property) eqn:Hok;
      [|done].
    intros [= <-]. rewrite lookup_insert_eq.
    by rewrite apply_descriptor_fixed.
  - destruct (tbl !! name) as [cur|].
    + destruct (change_allowed d cur); [|done].
      intros [= <-]. by rewrite lookup_insert_ne.
    + intros [= <-]. by rewrite lookup_insert_ne.
Qed.

Lemma defineProperty_accessor_unchanged d tbl tbl' :
  tbl !! "devToolsWebContents" = Some devToolsWebContents_property →
  defineProperty "devToolsWebContents" d tbl = Return tbl' →
  tbl' = tbl.
Proof.
  intros Hacc. unfold defineProperty.
  destruct (is_accessor_descriptor d && is_data_descriptor d) eqn:Hmix;
    [done|].
  rewrite Hacc.
  destruct (change_allowed d devToolsWebContents_property) eqn:Hok; [|done].
  intros [= <-]. rewrite apply_descriptor_fixed by done.
  by apply insert_id.
Qed.

Lemma deleteProperty_keeps_accessor name tbl :
  tbl !! "devToolsWebContents" = Some devToolsWebContents_property →
  (deleteProperty name tbl).2 !! "devToolsWebContents"
  = Some devToolsWebContents_property.
Proof.
  intros Hacc. unfold deleteProperty.
  destruct (decide (name = "devToolsWebContents")) as [->|Hne].
  - by rewrite Hacc.
  - destruct (tbl !! name) as [cur|]; [|done].
    destruct (prop_configurable cur); [|done].
    simpl. by rewrite lookup_delete_ne.
Qed.

(** *** Every step keeps the window installed *)

Lemma native_observe_installed visible minimized w :
  installed w → installed (native_observe visible minimized w).
Proof. intros [H1 H2 H3]. by split. Qed.

Lemma installed_once w :
  installed w →
  wc_listeners (webContents w) = [load_url_subscription]
  ∨ wc_listeners (webContents w) = [].
Proof. intros [_ _ [[H _]|[H _]]]; auto. Qed.

Lemma visibilityChanged_installed w :
  installed w → installed (visibilityChanged w).
Proof.
  intros Hw. rewrite visibilityChanged_spec by by apply installed_once.
  case_bool_decide; [|done].
  destruct Hw as [H1 H2 H3]. by split.
Qed.

Lemma emit_keeps_installed event args w :
  installed w → installed (emit event args w).
Proof.
  intros Hw. rewrite emit_installed by apply Hw.
  repeat case_bool_decide; try done.
  - by apply visibilityChanged_installed.
  - destruct Hw as [? ? ?]. by split.
  - destruct Hw as [? ? ?]. by split.
Qed.

Lemma step_installed a w : installed w → installed (step a w).
Proof.
  intros Hw. destruct a as [event args v m|event args|v|name d|name]; simpl.
  - by apply emit_keeps_installed, native_observe_installed.
  - destruct Hw as [H1 H2 [[H3 H4]|[H3 H4]]].
    + rewrite wc_emit_pending by done.
      split; [done|done|]. simpl.
      case_bool_decide; simpl; [right|left]; by rewrite ?H4.
    + rewrite wc_emit_spent by done.
      split; [done|done|]. by right.
  - destruct Hw as [H1 H2 H3]. by split.
  - destruct (defineProperty name d (own w)) as [tbl|e] eqn:Hdef; [|done].
    destruct Hw as [H1 H2 H3]. split; [done| |done]. simpl.
    by eapply defineProperty_keeps_accessor.
  - destruct Hw as [H1 H2 H3]. split; [done| |done]. simpl.
    by apply deleteProperty_keeps_accessor.
Qed.

Lemma run_installed acts w : installed w → installed (run acts w).
Proof.
  revert w. induction acts as [|a acts IH]; intros w Hw; simpl; [done|].
  by apply IH, step_installed.
Qed.

Lemma run_app acts1 acts2 w :
  run (acts1 ++ acts2) w = run acts2 (run acts1 w).
Proof.
  revert w. induction acts1 as [|a acts1 IH]; intros w; simpl; [done|].
  apply IH.
Qed.

(** *** What one step does to the cache, the notifications and the
    one-shot subscription *)

Lemma notifications_emit w event args :
  notifications
    (with_webContents
       {| wc_listeners := wc_listeners (webContents w);
          wc_emitted := wc_emitted (webContents w) ++ [(event, args)];
          wc_focus_calls := wc_focus_calls (webContents w);
          wc_devToolsWebContents := wc_devToolsWebContents (webContents w) |}
       w)
  = notifications w ++
    if bool_decide (event = "-window-visibility-change") then [args] else [].
Proof.
  unfold notifications; simpl.
  rewrite List.filter_app, fmap_app; simpl.
  by case_bool_decide.
Qed.

Lemma step_native_event event args visible minimized w :
  installed w →
  let newState := visible && negb minimized in
  let w' := step (NativeEvent event args visible minimized) w in
  closure_isVisible w'
  = (if bool_decide (event ∈ visibilityEvents) then newState
     else closure_isVisible w)
  ∧ notifications w'
    = notifications w ++
      (if bool_decide (event ∈ visibilityEvents)
          && bool_decide (newState ≠ closure_isVisible w)
       then [payload newState] else [])
  ∧ native w' = native (native_observe visible minimized w)
  ∧ wc_listeners (webContents w') = wc_listeners (webContents w)
  ∧ wc_focus_calls (webContents w') = wc_focus_calls (webContents w)
  ∧ wc_devToolsWebContents (webContents w')
    = wc_devToolsWebContents (webContents w)
  ∧ own w' = own w.
Proof.
  intros Hw; simpl.
  pose proof (native_observe_installed visible minimized w Hw) as Hobs.
  rewrite emit_installed by apply Hobs.
  destruct (bool_decide (event ∈ visibilityEvents)); simpl.
  - rewrite visibilityChanged_spec by by apply installed_once.
    unfold effectively_visible, isVisible, isMinimized; simpl.
    destruct (decide (closure_isVisible w = visible && negb minimized))
      as [Heq|Hne].
    + rewrite (bool_decide_eq_false_2 (closure_isVisible w ≠ _)) by tauto.
      rewrite (bool_decide_eq_false_2 (_ ≠ closure_isVisible w)) by
        (intros Hne; by apply Hne).
      rewrite app_nil_r. by repeat split.
    + rewrite (bool_decide_eq_true_2 (closure_isVisible w ≠ _)) by done.
      rewrite (bool_decide_eq_true_2 (_ ≠ closure_isVisible w)) by
        (intros Heq; by apply Hne).
      repeat split; try done.
      rewrite (notifications_emit (with_closure_isVisible _
                 (native_observe visible minimized w))).
      by rewrite bool_decide_eq_true_2.
  - rewrite app_nil_r. by repeat case_bool_decide.
Qed.

Lemma step_closure a w :
  installed w →
  closure_isVisible (step a w)
  = match a with
    | NativeEvent event _ visible minimized =>
        if bool_decide (event ∈ visibilityEvents)
        then visible && negb minimized else closure_isVisible w
    | _ => closure_isVisible w
    end.
Proof.
  intros Hw. destruct a as [event args v m|event args|v|name d|name].
  - apply step_native_event, Hw.
  - done.
  - done.
  - simpl. by destruct (defineProperty name d (own w)).
  - done.
Qed.

Lemma step_once a w :
  installed w →
  wc_focus_calls (webContents (step a w))
  = (if is_load_url a then 1 else wc_focus_calls (webContents w))
  ∧ wc_listeners (webContents (step a w))
    = (if is_load_url a then [] else wc_listeners (webContents w)).
Proof.
  intros Hw. destruct a as [event args v m|event args|v|name d|name].
  - destruct (step_native_event event args v m w Hw)
      as (_ & _ & _ & Hls & Hcalls & _). by simpl in *.
  - simpl. destruct Hw as [_ _ [[Hls Hcalls]|[Hls Hcalls]]].
    + rewrite wc_emit_pending by done.
      case_bool_decide; simpl; by rewrite ?Hls, ?Hcalls.
    + rewrite wc_emit_spent by done; simpl.
      case_bool_decide; simpl; by rewrite ?Hls, ?Hcalls.
  - done.
  - simpl. by destruct (defineProperty name d (own w)).
  - done.
Qed.

Lemma run_quiet evs w :
  installed w →
  Forall (observes (closure_isVisible w)) evs →
  notifications (run evs w) = notifications w
  ∧ closure_isVisible (run evs w) = closure_isVisible w.
Proof.
  intros Hw Hevs. revert w Hw Hevs.
  induction evs as [|a evs IH]; intros w Hw Hevs; [done|].
  inversion Hevs as [|? ? Ha Hrest]; subst.
  destruct a as [event args v m| | | |]; try done.
  cbn [observes] in Ha. cbn [run].
  destruct (step_native_event event args v m w Hw) as (Hc & Hn & _).
  pose proof (step_installed (NativeEvent event args v m) w Hw) as Hw1.
  set (w1 := step (NativeEvent event args v m) w) in *.
  assert (Hsame : closure_isVisible w1 = closure_isVisible w).
  { rewrite Hc. by case_bool_decide. }
  destruct (IH w1 Hw1) as [IHn IHc]; [by rewrite Hsame|].
  rewrite IHn, IHc, Hn, Hsame. split; [|done].
  rewrite (bool_decide_eq_false_2 (_ ≠ closure_isVisible w)) by
    (intros Hne; by apply Hne).
  by rewrite andb_false_r, app_nil_r.
Qed.

Lemma run_closure acts w :
  installed w →
  closure_isVisible (run acts w) = last_reading (closure_isVisible w) acts.
Proof.
  revert w. induction acts as [|a acts IH]; intros w Hw; simpl; [done|].
  rewrite IH by by apply step_installed.
  rewrite step_closure by done.
  destruct a as [event args v m| | | |]; try done.
  by case_bool_decide.
Qed.

Lemma run_once acts w :
  installed w →
  wc_focus_calls (webContents (run acts w))
  = (if existsb is_load_url acts then 1
     else wc_focus_calls (webContents w))
  ∧ wc_listeners (webContents (run acts w))
    = (if existsb is_load_url acts then []
       else wc_listeners (webContents w)).
Proof.
  revert w. induction acts as [|a acts IH]; intros w Hw; simpl; [done|].
  destruct (IH (step a w) (step_installed a w Hw)) as [IHc IHl].
  destruct (step_once a w Hw) as [Hc Hl].
  rewrite IHc, IHl, Hc, Hl.
  destruct (is_load_url a); simpl; [|done].
  by destruct (existsb is_load_url acts).
Qed.

(** *** The claims *)

(** C1 (amended). After [_init], in every state a window can reach, each
    of the events show, hide, minimize, maximize and restore recomputes
    newState = isVisible() && !isMinimized(); the cache then holds newState,
    and exactly one notification with payload "visible" (newState true) or
    "hidden" (newState false) is added when newState differs from the
    cached value, none when it equals it. Hence a sequence of window events
    each of which observes the cached value produces no notification. *)
Theorem visibilityChanged_notifies_transitions
    (n : Native) (dev : jsval) (acts evs : list Action) :
  let w := run acts (initial n dev) in
  Forall (observes (closure_isVisible w)) evs →
  _init (construct n dev) = Return (initial n dev)
  ∧ Forall
      (fun event => ∀ args visible minimized,
         let newState := visible && negb minimized in
         let w' := step (NativeEvent event args visible minimized) w in
         closure_isVisible w' = newState
         ∧ notifications w'
           = notifications w ++
             (if bool_decide (newState ≠ closure_isVisible w)
              then [payload newState] else []))
      visibilityEvents
  ∧ notifications (run evs w) = notifications w.
Proof.
  intros w Hevs.
  assert (Hw : installed w) by apply run_installed, initial_installed.
  split; [apply init_returns|]. split.
  - apply Forall_forall. intros event Hin args v m.
    destruct (step_native_event event args v m w Hw) as (Hc & Hn & _).
    simpl in *. by rewrite (bool_decide_eq_true_2 _ Hin) in Hc, Hn.
  - by apply run_quiet.
Qed.

(** The scenario of the specification: a window that starts hidden
    receives show and emits "visible"; the maximize that follows observes
    the same derived value and emits nothing. *)
Lemma visibilityChanged_notifies_transitions_witness :
  let w := run [NativeEvent "show" [] true false]
             (initial (sample_native false false) VNull) in
  Forall (observes (closure_isVisible w))
    [NativeEvent "maximize" [] true false]
  ∧ notifications w = [payload true]
  ∧ notifications (run [NativeEvent "maximize" [] true false] w)
    = notifications w.
Proof.
  assert (H : Forall
                (observes
                   (closure_isVisible
                      (run [NativeEvent "show" [] true false]
                         (initial (sample_native false false) VNull))))
                [NativeEvent "maximize" [] true false]).
  { repeat constructor. }
  split; [exact H|]. split; [reflexivity|].
  exact (proj2 (proj2 (visibilityChanged_notifies_transitions
                         (sample_native false false) VNull
                         [NativeEvent "show" [] true false]
                         [NativeEvent "maximize" [] true false] H))).
Defined.

(** C1 as stated fails: hide followed by show leaves the derived value
    where it was, yet each of the two events is a transition and is
    notified. *)
Lemma net_unchanged_sequence_still_notifies :
  ¬ (∀ (n : Native) (dev : jsval) (evs : list Action),
       Forall (fun a => is_visibility_event a = true) evs →
       effectively_visible (run evs (initial n dev))
       = effectively_visible (initial n dev) →
       notifications (run evs (initial n dev))
       = notifications (initial n dev)).
Proof.
  intros Hclaim.
  specialize (Hclaim (sample_native true false) VNull
                [NativeEvent "hide" [] false false;
                 NativeEvent "show" [] true false]).
  assert (Hnotified :
            notifications
              (run [NativeEvent "hide" [] false false;
                    NativeEvent "show" [] true false]
                 (initial (sample_native true false) VNull))
            = [payload false; payload true]) by reflexivity.
  rewrite Hnotified in Hclaim.
  discriminate Hclaim.
  - repeat constructor.
  - reflexivity.
Qed.

(** C3. The cache is initialised by [_init] to isVisible() &&
    !isMinimized() as it is at binding time, and after any sequence of
    processed actions it equals the value derived during the most recent of
    the events show, hide, minimize, maximize and restore (the initial
    value when there was none). In particular, right after such an event
    the cache equals the value derived from the window's native state. *)
Theorem cached_visibility_is_last_reading
    (n : Native) (dev : jsval) (acts : list Action) :
  _init (construct n dev) = Return (initial n dev)
  ∧ closure_isVisible (initial n dev) = effectively_visible (construct n dev)
  ∧ closure_isVisible (run acts (initial n dev))
    = last_reading (effectively_visible (construct n dev)) acts
  ∧ Forall
      (fun event => ∀ args visible minimized,
         let w' := run (acts ++ [NativeEvent event args visible minimized])
                     (initial n dev) in
         closure_isVisible w' = effectively_visible w')
      visibilityEvents.
Proof.
  split; [apply init_returns|]. split; [apply initial_closure|]. split.
  - rewrite run_closure by apply initial_installed.
    by rewrite initial_closure.
  - apply Forall_forall. intros event Hin args v m. simpl.
    rewrite run_app. cbn [run].
    assert (Hw : installed (run acts (initial n dev)))
      by apply run_installed, initial_installed.
    destruct (step_native_event event args v m _ Hw)
      as (Hc & _ & Hnat & _).
    rewrite Hc, (bool_decide_eq_true_2 _ Hin).
    unfold effectively_visible, isVisible, isMinimized. by rewrite Hnat.
Qed.

(** C4. The listener registered with [once] for "load-url" calls the
    content surface's [focus] exactly once, at the first "load-url" emitted
    on the surface: it is removed from the listener table at that point,
    so later occurrences call nothing, and without any "load-url" the
    subscription stays pending and [focus] is never called. No other event
    on the window or the surface triggers it. *)
Theorem load_url_focuses_once
    (n : Native) (dev : jsval) (acts : list Action) :
  _init (construct n dev) = Return (initial n dev)
  ∧ wc_focus_calls (webContents (run acts (initial n dev)))
    = (if existsb is_load_url acts then 1 else 0)
  ∧ wc_listeners (webContents (run acts (initial n dev)))
    = (if existsb is_load_url acts then [] else [load_url_subscription]).
Proof.
  split; [apply init_returns|].
  destruct (run_once acts (initial n dev) (initial_installed n dev))
    as [Hc Hl].
  destruct (initial_quiet n dev) as (_ & Hc0 & Hl0).
  by rewrite Hc, Hl, Hc0, Hl0.
Qed.

(** C10. In every state a window can reach after [_init], whatever client
    code defined or deleted in between, [devToolsWebContents] is the own
    accessor property created by [_init]: enumerable, not configurable,
    with the getter of lines 71-73 and no setter. Reading it runs that
    getter, which yields the content surface's [devToolsWebContents] as it
    is at that moment; assigning to it is rejected, deleting it fails, and
    [Object.defineProperty] on it either throws or leaves it as it is. *)
Theorem devToolsWebContents_is_read_only
    (n : Native) (dev : jsval) (acts : list Action) :
  let w := run acts (initial n dev) in
  _init (construct n dev) = Return (initial n dev)
  ∧ own w !! "devToolsWebContents"
    = Some (AccessorProperty (Some F_getDevToolsWebContents) None true false)
  ∧ get "devToolsWebContents" (own w)
    = GetCallsGetter F_getDevToolsWebContents
  ∧ getDevToolsWebContents w = wc_devToolsWebContents (webContents w)
  ∧ (∀ v, getDevToolsWebContents (step (DevToolsChange v) w) = v)
  ∧ (∀ v, assign "devToolsWebContents" v (own w) = SetRejected)
  ∧ deleteProperty "devToolsWebContents" (own w) = (false, own w)
  ∧ (∀ d, defineProperty "devToolsWebContents" d (own w) = Return (own w)
          ∨ ∃ e, defineProperty "devToolsWebContents" d (own w) = Throw e).
Proof.
  intros w.
  assert (Hw : installed w) by apply run_installed, initial_installed.
  destruct Hw as [_ Hown _].
  unfold devToolsWebContents_property in Hown.
  split; [apply init_returns|]. split; [exact Hown|].
  split; [unfold get; by rewrite Hown|].
  split; [done|]. split; [done|].
  split; [intros v; unfold assign; by rewrite Hown|].
  split; [unfold deleteProperty; by rewrite Hown|].
  intros d.
  destruct (defineProperty "devToolsWebContents" d (own w)) as [tbl|e]
    eqn:Hdef; [left|right; by exists e].
  f_equal. by eapply defineProperty_accessor_unchanged.
Qed.

(** C2. The overridden [setBounds] makes exactly one call of the native
    [setBounds]; its first argument is the object that has, for every
    field, the value of the patch when the patch has that field and the
    value of [getBounds()] otherwise, and the remaining arguments are the
    caller's, unchanged. The fields of the forwarded object are those of
    [getBounds()] and of the patch; with an empty patch it is
    [getBounds()] itself. Nothing else of the window changes. *)
Theorem setBounds_overlays_patch
    (w : BrowserWindow) (patch : gmap string jsval) (opts : list jsval) :
  ∃ merged : gmap string jsval,
    n_setBounds_calls (native (setBounds patch opts w))
    = n_setBounds_calls (native w) ++ [(merged, opts)]
    ∧ (∀ field,
         merged !! field
         = match patch !! field with
           | Some v => Some v
           | None => getBounds w !! field
           end)
    ∧ dom merged = dom patch ∪ dom (getBounds w)
    ∧ n_setBounds_calls (native (setBounds ∅ opts w))
      = n_setBounds_calls (native w) ++ [(getBounds w, opts)]
    ∧ getBounds (setBounds patch opts w) = getBounds w
    ∧ webContents (setBounds patch opts w) = webContents w
    ∧ closure_isVisible (setBounds patch opts w) = closure_isVisible w.
Proof.
  exists (patch ∪ getBounds w). split; [done|]. split.
  - intros field. rewrite lookup_union.
    destruct (patch !! field) as [v|]; simpl.
    + by destruct (getBounds w !! field).
    + by destruct (getBounds w !! field).
  - split; [apply dom_union_L|].
    split; [|done].
    unfold setBounds. by rewrite (left_id_L ∅ (∪)).
Qed.

(** The scenario of the specification: with bounds (0, 0, 800, 600) the
    patch {width: 1000} forwards (0, 0, 1000, 600). *)
Example setBounds_width_scenario :
  n_setBounds_calls
    (native (setBounds {["width" := VNum 1000]} [VBool true]
               (initial (sample_native true false) VNull)))
  = [(getBounds
        (with_native
           {| n_bounds := {| x := 0; y := 0; width := 1000; height := 600 |};
              n_visible := true; n_minimized := false;
              n_fullscreen := false; n_documentEdited := false;
              n_kiosk := false; n_contentView := true;
              n_setBounds_calls := [] |}
           (initial (sample_native true false) VNull)),
      [VBool true])].
Proof. by vm_compute. Qed.

(** C8 fails on the code. The setter of [documentEdited] stores the
    native document-edited state, but the getter returns what
    [isFullscreen()] reports, which the assignment does not touch. *)
Theorem documentEdited_getter_reads_fullscreen (w : BrowserWindow) (v : bool) :
  get_documentEdited (set_documentEdited v w) = isFullscreen w
  ∧ isDocumentEdited (set_documentEdited v w) = v
  ∧ get_documentEdited
      (set_documentEdited true (initial (sample_native true false) VNull))
    = false.
Proof. by repeat split. Qed.

(** [_init] makes the override the window's own [setBounds]. *)
Lemma init_installs_setBounds (n : Native) (dev : jsval) :
  get "setBounds" (own (initial n dev)) = GetValue (VFun F_setBoundsOverride).
Proof.
  unfold initial, _init, defineProperty; simpl.
  rewrite lookup_insert_ne, lookup_empty by done; simpl.
  unfold get. by rewrite lookup_insert_ne, lookup_insert_eq.
Qed.

(** The sibling accessor [kiosk] reads back what its setter stored. *)
Lemma kiosk_reads_back (w : BrowserWindow) (v : bool) :
  get_kiosk (set_kiosk v w) = v.
Proof. done. Qed.

End BridgeFacts.


(** ** Helpers delegated to the content surface *)

Module FacadeFacts.

Import Facade.

(** C7 (amended). The helpers declared with a rest parameter (loadURL,
    loadFile, reload, send, openDevTools, inspectElement, capturePage) call
    the content surface's method of the same name with all their arguments
    and return its completion, value or error, unchanged. The helpers
    declared without parameters (closeDevTools, isDevToolsOpened,
    isDevToolsFocused, toggleDevTools, inspectSharedWorker,
    inspectServiceWorker, showDefinitionForSelection) call the surface's
    method with no argument, whatever they were given, and return its
    completion unchanged. getURL called without arguments returns the
    completion of the surface's getURL(). setBackgroundThrottling called
    with one argument calls the surface's method with exactly that argument
    and has the surface's completion whenever that is an error or
    [undefined]. *)
Theorem helpers_delegate_to_surface
    (Surface : Type)
    (invoke : string → list jsval → Surface → Completion jsval * Surface)
    (args : list jsval) (wc : Surface) :
  Forall (fun op => call Surface invoke op args wc
                    = invoke (method op) args wc) variadic
  ∧ Forall (fun op => call Surface invoke op args wc
                      = invoke (method op) [] wc) nullary
  ∧ call Surface invoke getURL [] wc = invoke "getURL" [] wc
  ∧ ∀ allowed,
      (call Surface invoke setBackgroundThrottling [allowed] wc).2
      = (invoke "setBackgroundThrottling" [allowed] wc).2
      ∧ match (invoke "setBackgroundThrottling" [allowed] wc).1 with
        | Return VUndefined | Throw _ =>
            call Surface invoke setBackgroundThrottling [allowed] wc
            = invoke "setBackgroundThrottling" [allowed] wc
        | Return _ =>
            (call Surface invoke setBackgroundThrottling [allowed] wc).1
            = Return VUndefined
        end.
Proof.
  split; [by repeat constructor|].
  split; [by repeat constructor|].
  split; [done|].
  intros allowed; simpl.
  destruct (invoke "setBackgroundThrottling" [allowed] wc) as [[v|e] wc'];
    simpl; [|done].
  by destruct v.
Qed.

(** C7 as stated fails: closeDevTools is declared without parameters, so
    an argument given to it does not reach the content surface. *)
Lemma closeDevTools_drops_arguments :
  ¬ (∀ (Surface : Type)
       (invoke : string → list jsval → Surface → Completion jsval * Surface)
       (op : Operation) (args : list jsval) (wc : Surface),
       op ∈ facade →
       call Surface invoke op args wc = invoke (method op) args wc).
Proof.
  intros Hclaim.
  specialize (Hclaim _ recording_invoke closeDevTools [VBool true] []).
  assert (Hin : closeDevTools ∈ facade) by (unfold facade; set_solver).
  specialize (Hclaim Hin). discriminate Hclaim.
Qed.

(** What the two remaining helpers do with a recording surface: getURL
    passes no argument on, and setBackgroundThrottling passes its first
    argument only and returns [undefined]. *)
Lemma getURL_and_setBackgroundThrottling_on_recorder :
  call _ recording_invoke getURL [VStr "a"] []
  = (Return (VNum 0), [("getURL", [])])
  ∧ call _ recording_invoke setBackgroundThrottling [VBool true; VNum 2] []
    = (Return VUndefined, [("setBackgroundThrottling", [VBool true])]).
Proof. by split. Qed.

End FacadeFacts.


(** ** More on the registry queries *)

Module RegistryMore.

Import Registry Views RegistryFacts.

Lemma elem_of_getAllWindows (toplevel : list Window) (w : Window) :
  w ∈ getAllWindows toplevel
  ↔ w ∈ toplevel ∧ constructor_name w = "BrowserWindow".
Proof.
  unfold getAllWindows.
  rewrite !list_elem_of_In, filter_In. simpl.
  by rewrite bool_decide_eq_true.
Qed.

(** X1. [getAllWindows] (lines 163-165) returns exactly the top-level windows
    whose constructor is named BrowserWindow, in the order they have in
    the list it filters; filtering its result again changes nothing. *)
Theorem getAllWindows_exactly_browser_windows (toplevel : list Window) :
  getAllWindows toplevel `sublist_of` toplevel
  ∧ (∀ w, w ∈ getAllWindows toplevel
          ↔ w ∈ toplevel ∧ constructor_name w = "BrowserWindow")
  ∧ getAllWindows (getAllWindows toplevel) = getAllWindows toplevel.
Proof.
  split; [|split].
  - induction toplevel as [|w ws IH]; simpl; [constructor|].
    destruct (bool_decide _); by constructor.
  - intros w. apply elem_of_getAllWindows.
  - induction toplevel as [|w ws IH]; simpl; [done|].
    destruct (bool_decide _) eqn:Hw; simpl; [|done].
    by rewrite Hw, IH.
Qed.

(** X2. [fromId] (lines 158-161) and [getAllWindows] agree: a window of the
    top-level list is returned by [fromId] exactly when it is in
    [getAllWindows], and whatever [fromId] returns is a BrowserWindow; a
    missing window gives [null]. *)
Theorem fromId_agrees_with_getAllWindows
    (toplevel : list Window) (w : Window) :
  (w ∈ getAllWindows toplevel
   ↔ w ∈ toplevel ∧ fromId (RObj w) = Some w)
  ∧ (∀ r v, fromId r = Some v
            → r = RObj v ∧ constructor_name v = "BrowserWindow")
  ∧ fromId RNull = None ∧ fromId RUndefined = None.
Proof.
  split; [|split; [|done]].
  - rewrite elem_of_getAllWindows.
    unfold fromId, isBrowserWindow.
    destruct (decide (constructor_name w = "BrowserWindow")) as [Hk|Hk].
    + rewrite (bool_decide_eq_true_2 _ Hk). tauto.
    + rewrite (bool_decide_eq_false_2 _ Hk). split; intros [? ?]; done.
  - intros [| |u] v; simpl; try done.
    destruct (decide (constructor_name u = "BrowserWindow")) as [Hk|Hk].
    + rewrite (bool_decide_eq_true_2 _ Hk). by intros [= <-].
    + by rewrite (bool_decide_eq_false_2 _ Hk).
Qed.

Lemma fromBrowserView_find getBrowserView (toplevel : list Window) view :
  fromBrowserView getBrowserView toplevel view
  = Return (List.find (shows getBrowserView view) (getAllWindows toplevel)).
Proof. apply for_of_first_find, Forall_forall. by intros w _. Qed.

(** X3. [fromBrowserView] (lines 182-188) never throws, whatever the windows'
    content surfaces are: it returns the first window of the snapshot, in
    enumeration order, whose [getBrowserView()] is strictly equal to the
    argument, and [null] exactly when the snapshot has no such window. *)
Theorem fromBrowserView_first_match_or_null
    (getBrowserView : Window → jsval) (toplevel : list Window)
    (view : jsval) :
  fromBrowserView getBrowserView toplevel view
  = Return (List.find (shows getBrowserView view) (getAllWindows toplevel))
  ∧ first_match (shows getBrowserView view) (getAllWindows toplevel)
      (List.find (shows getBrowserView view) (getAllWindows toplevel))
  ∧ (Forall (fun w => getBrowserView w ≠ view) (getAllWindows toplevel)
     ↔ fromBrowserView getBrowserView toplevel view = Return None).
Proof.
  split; [apply fromBrowserView_find|].
  split; [apply find_first_match|].
  rewrite fromBrowserView_find. split.
  - intros Hnone. f_equal.
    destruct (List.find _ _) as [w|] eqn:Hfind; [|done].
    apply find_some in Hfind as [Hin Hw].
    rewrite Forall_forall in Hnone.
    apply list_elem_of_In, Hnone in Hin.
    unfold shows, strict_equal in Hw. by apply bool_decide_eq_true in Hw.
  - intros [= Hfind]. apply Forall_forall. intros w Hin Heq.
    apply list_elem_of_In in Hin.
    pose proof (find_none _ _ Hfind w Hin) as Hw.
    unfold shows, strict_equal in Hw. by apply bool_decide_eq_false in Hw.
Qed.

(** X4. Asking [fromBrowserView] for [null] does not give [null] when some
    BrowserWindow has no secondary view: [null === null] holds, so the
    query returns a window whose [getBrowserView()] is [null]. *)
Theorem fromBrowserView_null_finds_viewless_window
    (getBrowserView : Window → jsval) (toplevel : list Window) :
  Exists (fun w => getBrowserView w = VNull) (getAllWindows toplevel) →
  ∃ w, fromBrowserView getBrowserView toplevel VNull = Return (Some w)
       ∧ w ∈ getAllWindows toplevel ∧ getBrowserView w = VNull.
Proof.
  intros Hex. rewrite fromBrowserView_find.
  destruct (List.find _ _) as [w|] eqn:Hfind.
  - exists w. apply find_some in Hfind as [Hin Hw].
    split; [done|]. split; [by apply list_elem_of_In|].
    unfold shows, strict_equal in Hw. by apply bool_decide_eq_true in Hw.
  - apply Exists_exists in Hex as (w & Hin & Hw).
    apply list_elem_of_In in Hin.
    pose proof (find_none _ _ Hfind w Hin) as Hno.
    unfold shows, strict_equal in Hno.
    apply bool_decide_eq_false in Hno. done.
Qed.

Lemma fromBrowserView_null_finds_viewless_window_witness :
  Exists (fun w => sample_views w = VNull) (getAllWindows [W1; W2; W3])
  ∧ ∃ w, fromBrowserView sample_views [W1; W2; W3] VNull = Return (Some w)
         ∧ w ∈ getAllWindows [W1; W2; W3] ∧ sample_views w = VNull.
Proof.
  assert (H : Exists (fun w => sample_views w = VNull)
                (getAllWindows [W1; W2; W3])).
  { apply Exists_cons_tl, Exists_cons_hd. reflexivity. }
  split; [exact H|].
  exact (fromBrowserView_null_finds_viewless_window sample_views
           [W1; W2; W3] H).
Defined.

Lemma getAllWindows_skip (before after : list Window) (w : Window) :
  constructor_name w ≠ "BrowserWindow" →
  getAllWindows (before ++ w :: after) = getAllWindows (before ++ after).
Proof.
  intros Hk. rewrite !getAllWindows_app. simpl.
  by rewrite (bool_decide_eq_false_2 _ Hk).
Qed.

(** X5. A top-level window of another kind is invisible to every query: with
    or without it in the list, [getAllWindows], [getFocusedWindow],
    [fromWebContents] and [fromBrowserView] give the same result, even when
    that window is focused, hosts the handle or shows the view. *)
Theorem queries_ignore_other_kinds
    (equal : WebContents → WebContents → bool)
    (getBrowserView : Window → jsval)
    (before after : list Window) (w : Window)
    (handle : WebContents) (view : jsval) :
  constructor_name w ≠ "BrowserWindow" →
  getAllWindows (before ++ w :: after) = getAllWindows (before ++ after)
  ∧ getFocusedWindow (before ++ w :: after)
    = getFocusedWindow (before ++ after)
  ∧ fromWebContents equal (before ++ w :: after) handle
    = fromWebContents equal (before ++ after) handle
  ∧ fromBrowserView getBrowserView (before ++ w :: after) view
    = fromBrowserView getBrowserView (before ++ after) view.
Proof.
  intros Hk.
  pose proof (getAllWindows_skip before after w Hk) as Hskip.
  unfold getFocusedWindow, fromWebContents, fromBrowserView.
  by rewrite Hskip.
Qed.

Lemma queries_ignore_other_kinds_witness :
  constructor_name W_plain ≠ "BrowserWindow"
  ∧ getFocusedWindow ([W1] ++ W_plain :: [W3]) = Return (Some W3).
Proof.
  assert (H : constructor_name W_plain ≠ "BrowserWindow") by done.
  split; [exact H|].
  etrans.
  - exact (proj1 (proj2 (queries_ignore_other_kinds same_id sample_views
                           [W1] [W3] W_plain
                           {| wc_id := 0; wc_isDevToolsFocused := false |}
                           VNull H))).
  - reflexivity.
Defined.

(** The scan of [getFocusedWindow] either is blocked and throws, or
    returns the first focus holder. *)
Lemma focus_scan_dichotomy (ws : list Window) :
  (blocked_scan ws
   ∧ ∃ e, for_of_first
            (fun window =>
               if isFocused window then Return true
               else isDevToolsFocused window) ws = Throw e)
  ∨ (¬ blocked_scan ws
     ∧ for_of_first
         (fun window =>
            if isFocused window then Return true
            else isDevToolsFocused window) ws
       = Return (List.find focus_holder ws)).
Proof.
  induction ws as [|w ws IH].
  - right. split; [|done].
    intros (before & v & after & Heq & _). by destruct before.
  - cbn [for_of_first List.find].
    assert (Hhead : focus_holder w = true → ¬ blocked_scan (w :: ws)).
    { intros Hw (before & v & after & Heq & Hbefore & Hv & Habs).
      destruct before as [|u before]; simplify_eq/=.
      - unfold focus_holder in Hw. rewrite Hv in Hw.
        by destruct (webContents v).
      - inversion Hbefore as [|? ? [_ Hu] _]; subst. congruence. }
    destruct (isFocused w) eqn:Hf.
    { assert (Hfh : focus_holder w = true)
        by (unfold focus_holder; by rewrite Hf).
      right. split; [by apply Hhead|]. by rewrite Hfh. }
    unfold isDevToolsFocused at 1 3.
    destruct (webContents w) as [| |wc] eqn:Hwc.
    + left. split; [|by eexists].
      exists [], w, ws. repeat split; [constructor|done|by rewrite Hwc].
    + left. split; [|by eexists].
      exists [], w, ws. repeat split; [constructor|done|by rewrite Hwc].
    + destruct (wc_isDevToolsFocused wc) eqn:Hd.
      { assert (Hfh : focus_holder w = true)
          by (unfold focus_holder; by rewrite Hf, Hwc).
        right. split; [by apply Hhead|]. by rewrite Hfh. }
      assert (Hw : bound w ∧ focus_holder w = false).
      { unfold bound, focus_holder. by rewrite Hf, Hwc. }
      destruct IH as [[Hblocked Hthrow]|[Hfree Hret]].
      * left. split; [|done].
        destruct Hblocked as (before & v & after & -> & Hbefore & Hv).
        exists (w :: before), v, after.
        split; [done|]. split; [by constructor|done].
      * right. rewrite (proj2 Hw). split; [|done].
        intros (before & v & after & Heq & Hbefore & Hv & Habs).
        destruct before as [|u before]; simplify_eq/=.
        -- by rewrite Hwc in Habs.
        -- apply Hfree. exists before, v, after.
           inversion Hbefore; subst. by repeat split.
Qed.





(** X6. [getFocusedWindow] (lines 167-172) throws exactly when its scan
    reaches, before any focus holder, a window that is not focused and has
    no content surface (the unguarded read of [isDevToolsFocused]); in
    every other case it returns the first focus holder. A focused window
    is returned without its content surface being read. *)
Theorem getFocusedWindow_throws_iff_blocked (toplevel : list Window) :
  ((∃ e, getFocusedWindow toplevel = Throw e)
   ↔ blocked_scan (getAllWindows toplevel))
  ∧ (getFocusedWindow toplevel
     = Return (List.find focus_holder (getAllWindows toplevel))
     ∨ blocked_scan (getAllWindows toplevel))
  ∧ getFocusedWindow [W1; W_focused_detached; W_detached]
    = Return (Some W_focused_detached).
Proof.
  unfold getFocusedWindow.
  destruct (focus_scan_dichotomy (getAllWindows toplevel))
    as [[Hblocked [e He]]|[Hfree Hret]].
  - split; [|split; [by right|done]]. split; [done|by eexists].
  - split; [|split; [by left|done]]. rewrite Hret.
    split; [by intros [e ?]|done].
Qed.

(** X7. Looking a window up by its own content surface gives that window
    back, provided no other window of the snapshot has a surface of the
    same identity. *)
Theorem fromWebContents_finds_own_window
    (toplevel : list Window) (w : Window) (wc : WebContents) :
  w ∈ getAllWindows toplevel →
  webContents w = RObj wc →
  sole_host (getAllWindows toplevel) w wc →
  fromWebContents same_id toplevel wc = Return (Some w).
Proof.
  intros Hin Hwc Hsole. rewrite fromWebContents_find. f_equal.
  destruct (List.find _ _) as [v|] eqn:Hfind.
  - apply find_some in Hfind as [Hv Hhosts]. f_equal.
    unfold hosts in Hhosts.
    destruct (webContents v) as [| |wc'] eqn:Hvc; try done.
    apply bool_decide_eq_true in Hhosts.
    apply (Hsole v wc'); [by apply list_elem_of_In|done|done].
  - apply list_elem_of_In in Hin.
    pose proof (find_none _ _ Hfind w Hin) as Hno.
    unfold hosts in Hno. rewrite Hwc in Hno.
    unfold same_id in Hno. by rewrite bool_decide_eq_true_2 in Hno.
Qed.

Lemma fromWebContents_finds_own_window_witness :
  fromWebContents same_id [W1; W_detached; W3]
    {| wc_id := 13; wc_isDevToolsFocused := true |}
  = Return (Some W3).
Proof.
  apply (fromWebContents_finds_own_window [W1; W_detached; W3] W3).
  - vm_compute. set_solver.
  - reflexivity.
  - intros v wc' Hv Hvc Hid. vm_compute in Hv.
    apply elem_of_cons in Hv as [->|Hv]; [by simplify_eq/=|].
    apply elem_of_cons in Hv as [->|Hv]; [by simplify_eq/=|].
    apply elem_of_cons in Hv as [->|Hv]; [done|].
    by apply elem_of_nil in Hv.
Defined.

End RegistryMore.


(** ** More on the event bridge *)

Module BridgeMore.

Import Props Bridge Traces BridgeFacts.

(** *** Notifications to [app] *)

Lemma initial_app n dev :
  app_emitted (initial n dev) = [("browser-window-created", createEmpty)].
Proof.
  unfold initial, _init, defineProperty; simpl.
  by rewrite lookup_insert_ne, lookup_empty.
Qed.

Lemma step_app a w :
  installed w → app_emitted (step a w) = app_emitted w ++ redirected a.
Proof.
  intros Hw. destruct a as [event args v m|event args|v|name d|name];
    simpl; rewrite ?app_nil_r; try done.
  - pose proof (native_observe_installed v m w Hw) as Hobs.
    rewrite emit_installed by apply Hobs.
    destruct (decide (event ∈ visibilityEvents)) as [Hin|Hout].
    + rewrite (bool_decide_eq_true_2 _ Hin).
      rewrite visibilityChanged_spec by by apply installed_once.
      assert (Hb : event ≠ "blur").
      { intros ->. revert Hin. apply (bool_decide_unpack _). by vm_compute. }
      assert (Hf : event ≠ "focus").
      { intros ->. revert Hin. apply (bool_decide_unpack _). by vm_compute. }
      rewrite (bool_decide_eq_false_2 _ Hb), (bool_decide_eq_false_2 _ Hf).
      rewrite app_nil_r. by case_bool_decide.
    + rewrite (bool_decide_eq_false_2 _ Hout).
      repeat case_bool_decide; simpl; by rewrite ?app_nil_r.
  - by destruct (defineProperty name d (own w)).
Qed.

Lemma run_app_trace acts w :
  installed w →
  app_emitted (run acts w) = app_emitted w ++ flat_map redirected acts.
Proof.
  revert w. induction acts as [|a acts IH]; intros w Hw; simpl.
  - by rewrite app_nil_r.
  - rewrite IH by by apply step_installed.
    rewrite step_app by done. by rewrite <- app_assoc.
Qed.

(** X8. [app] is told of the window's creation once, by [_init], with the
    empty event; afterwards it receives exactly one browser-window-blur per
    blur event of the window and one browser-window-focus per focus event,
    in the order of the events and with the event's first argument, and
    nothing for any other event or action. *)
Theorem app_receives_created_then_blur_and_focus
    (n : Native) (dev : jsval) (acts : list Action) :
  app_emitted (run acts (initial n dev))
  = ("browser-window-created", createEmpty) :: flat_map redirected acts.
Proof.
  rewrite run_app_trace by apply initial_installed.
  by rewrite initial_app.
Qed.

(** *** The shape of the notification stream *)

Lemma alternating_snoc (b : bool) (k : nat) :
  alternating b (S k)
  = alternating b k ++ [payload (if Nat.even k then b else negb b)].
Proof.
  revert b. induction k as [|k IH]; intros b; [done|].
  change (alternating b (S (S k)))
    with (payload b :: alternating (negb b) (S k)).
  rewrite IH. cbn [alternating app]. do 3 f_equal.
  rewrite Nat.even_succ, <- Nat.negb_even.
  destruct (Nat.even k), b; done.
Qed.

Lemma step_notifications_other a w :
  installed w →
  foreign_notification a = false →
  notifications (step a w)
  = match a with
    | NativeEvent _ _ _ _ => notifications (step a w)
    | _ => notifications w
    end.
Proof.
  intros Hw Hforeign.
  destruct a as [event args v m|event args|v|name d|name]; simpl; try done.
  - simpl in Hforeign. apply bool_decide_eq_false in Hforeign.
    unfold notifications.
    destruct Hw as [_ _ [[Hls _]|[Hls _]]].
    + rewrite wc_emit_pending by done.
      case_bool_decide; simpl; rewrite List.filter_app, fmap_app; simpl;
        rewrite (bool_decide_eq_false_2 _ Hforeign); simpl;
        by rewrite app_nil_r.
    + rewrite wc_emit_spent by done; simpl.
      rewrite List.filter_app, fmap_app; simpl.
      rewrite (bool_decide_eq_false_2 _ Hforeign); simpl.
      by rewrite app_nil_r.
  - by destruct (defineProperty name d (own w)).
Qed.

Lemma step_alternates (d0 : bool) a w k :
  installed w →
  foreign_notification a = false →
  notifications w = alternating (negb d0) k →
  closure_isVisible w = (if Nat.even k then d0 else negb d0) →
  ∃ k', notifications (step a w) = alternating (negb d0) k'
        ∧ closure_isVisible (step a w)
          = (if Nat.even k' then d0 else negb d0).
Proof.
  intros Hw Hforeign Hn Hc.
  destruct a as [event args v m|event args|v|name d|name].
  - destruct (step_native_event event args v m w Hw) as (Hc' & Hn' & _).
    cbv zeta in Hc', Hn'.
    destruct (bool_decide (event ∈ visibilityEvents)); simpl in *.
    + destruct (decide (v && negb m = closure_isVisible w)) as [Heq|Hne].
      * exists k. rewrite Hn', Hc'.
        rewrite (bool_decide_eq_false_2 (_ ≠ closure_isVisible w)) by
          (intros Hne; by apply Hne).
        rewrite app_nil_r. split; [done|congruence].
      * exists (S k). rewrite Hn', Hc'.
        rewrite (bool_decide_eq_true_2 (_ ≠ closure_isVisible w)) by done.
        rewrite alternating_snoc, Hn.
        rewrite Nat.even_succ, <- Nat.negb_even.
        rewrite Hc in Hne.
        destruct (Nat.even k), d0, (v && negb m); simpl in *;
          by split.
    + exists k. rewrite Hn', Hc', app_nil_r. by split.
  - exists k. rewrite step_notifications_other by done. by split.
  - exists k. by split.
  - exists k. rewrite step_notifications_other by done.
    rewrite step_closure by done. by split.
  - exists k. by split.
Qed.

(** X9. As long as nobody else emits the notification event on the content
    surface, the notifications a window has sent alternate: the first one
    carries the opposite of the state at binding time, no two consecutive
    ones carry the same state, and the last one carries the state that is
    cached. *)
Theorem notifications_alternate
    (n : Native) (dev : jsval) (acts : list Action) :
  Forall (fun a => foreign_notification a = false) acts →
  let d0 := effectively_visible (construct n dev) in
  let w := run acts (initial n dev) in
  ∃ k, notifications w = alternating (negb d0) k
       ∧ closure_isVisible w = (if Nat.even k then d0 else negb d0)
       ∧ (k = 0 ∨ last (notifications w) = Some (payload (closure_isVisible w))).
Proof.
  intros Hacts d0 w.
  assert (Hgen : ∀ acts w k,
            installed w →
            Forall (fun a => foreign_notification a = false) acts →
            notifications w = alternating (negb d0) k →
            closure_isVisible w = (if Nat.even k then d0 else negb d0) →
            ∃ k', notifications (run acts w) = alternating (negb d0) k'
                  ∧ closure_isVisible (run acts w)
                    = (if Nat.even k' then d0 else negb d0)).
  { clear. induction acts as [|a acts IH]; intros w k Hw Hacts Hn Hc.
    - exists k. by split.
    - inversion Hacts as [|? ? Ha Hrest]; subst. simpl.
      destruct (step_alternates d0 a w k Hw Ha Hn Hc) as (k' & Hn' & Hc').
      by apply (IH (step a w) k'); [apply step_installed|..]. }
  destruct (Hgen acts (initial n dev) 0 (initial_installed n dev) Hacts)
    as (k & Hn & Hc).
  - by destruct (initial_quiet n dev) as [-> _].
  - apply initial_closure.
  - exists k. split; [done|]. split; [done|].
    destruct k as [|k]; [by left|right].
    fold w in Hn, Hc. rewrite Hn, Hc, alternating_snoc, last_snoc.
    rewrite Nat.even_succ, <- Nat.negb_even.
    by destruct (Nat.even k), d0.
Qed.

(** Hide then show on a window that was visible at binding time:
    "hidden", then "visible". *)
Lemma notifications_alternate_witness :
  Forall (fun a => foreign_notification a = false)
    [NativeEvent "hide" [] false false; NativeEvent "show" [] true false]
  ∧ ∃ k,
      notifications
        (run [NativeEvent "hide" [] false false;
              NativeEvent "show" [] true false]
           (initial (sample_native true false) VNull))
      = alternating false k
      ∧ closure_isVisible
          (run [NativeEvent "hide" [] false false;
                NativeEvent "show" [] true false]
             (initial (sample_native true false) VNull))
        = (if Nat.even k then true else false)
      ∧ (k = 0
         ∨ last
             (notifications
                (run [NativeEvent "hide" [] false false;
                      NativeEvent "show" [] true false]
                   (initial (sample_native true false) VNull)))
           = Some
               (payload
                  (closure_isVisible
                     (run [NativeEvent "hide" [] false false;
                           NativeEvent "show" [] true false]
                        (initial (sample_native true false) VNull))))).
Proof.
  assert (H : Forall (fun a => foreign_notification a = false)
                [NativeEvent "hide" [] false false;
                 NativeEvent "show" [] true false]).
  { repeat constructor. }
  split; [exact H|].
  exact (notifications_alternate (sample_native true false) VNull _ H).
Defined.

(** *** Bursts *)

(** X10. Several of the five events delivered while the native state stays the
    same (show and maximize and restore in one turn, say) notify the
    content surface at most once: once when that state differs from the
    cached one, not at all when it equals it, however many events there
    are. *)
Theorem burst_notifies_at_most_once
    (n : Native) (dev : jsval) (acts : list Action)
    (first : Action) (rest : list Action) (visible minimized : bool) :
  Forall (in_burst visible minimized) (first :: rest) →
  let w := run acts (initial n dev) in
  let newState := visible && negb minimized in
  notifications (run (first :: rest) w)
  = notifications w ++
    (if bool_decide (newState ≠ closure_isVisible w)
     then [payload newState] else [])
  ∧ closure_isVisible (run (first :: rest) w) = newState.
Proof.
  intros Hburst w newState.
  assert (Hw : installed w) by apply run_installed, initial_installed.
  inversion Hburst as [|? ? Hfirst Hrest]; subst.
  destruct first as [event args v m| | | |]; try done.
  destruct Hfirst as (Hin & -> & ->).
  destruct (step_native_event event args visible minimized w Hw)
    as (Hc & Hn & _).
  cbv zeta in Hc, Hn.
  rewrite (bool_decide_eq_true_2 _ Hin) in Hc, Hn.
  rewrite andb_true_l in Hn.
  cbn [run].
  set (w1 := step (NativeEvent event args visible minimized) w) in *.
  destruct (run_quiet rest w1) as [Hqn Hqc].
  - by apply step_installed.
  - eapply Forall_impl; [exact Hrest|].
    intros [event' args' v' m'| | | |]; try done.
    intros (_ & -> & ->). simpl. by rewrite Hc.
  - by rewrite Hqn, Hqc, Hn, Hc.
Qed.

(** A hidden window is shown, maximized and restored in one turn: one
    "visible". *)
Lemma burst_notifies_at_most_once_witness :
  Forall (in_burst true false)
    [NativeEvent "show" [] true false; NativeEvent "maximize" [] true false;
     NativeEvent "restore" [] true false]
  ∧ notifications
      (run [NativeEvent "show" [] true false;
            NativeEvent "maximize" [] true false;
            NativeEvent "restore" [] true false]
         (run [] (initial (sample_native false false) VNull)))
    = notifications (run [] (initial (sample_native false false) VNull)) ++
      (if bool_decide
            (true && negb false
             ≠ closure_isVisible
                 (run [] (initial (sample_native false false) VNull)))
       then [payload (true && negb false)] else []).
Proof.
  assert (H : Forall (in_burst true false)
                [NativeEvent "show" [] true false;
                 NativeEvent "maximize" [] true false;
                 NativeEvent "restore" [] true false]).
  { repeat (apply Forall_cons; split;
            [split; [apply (bool_decide_unpack _); by vm_compute|done]|]).
    constructor. }
  split; [exact H|].
  exact (proj1 (burst_notifies_at_most_once (sample_native false false)
                  VNull [] _ _ true false H)).
Defined.

(** *** Events outside the five *)

(** X11. A window event other than show, hide, minimize, maximize and restore
    (focus, blur, resize, ...) never notifies the content surface and never
    updates the cache, even when the derived value has changed by then.
    The change is notified by the next of the five events that still
    observes it. *)
Theorem other_events_defer_notification
    (n : Native) (dev : jsval) (acts : list Action)
    (event : string) (args : list jsval) (visible minimized : bool) :
  event ∉ visibilityEvents →
  let w := run acts (initial n dev) in
  let w1 := step (NativeEvent event args visible minimized) w in
  let newState := visible && negb minimized in
  notifications w1 = notifications w
  ∧ closure_isVisible w1 = closure_isVisible w
  ∧ Forall
      (fun event' => ∀ args',
         notifications
           (step (NativeEvent event' args' visible minimized) w1)
         = notifications w ++
           (if bool_decide (newState ≠ closure_isVisible w)
            then [payload newState] else []))
      visibilityEvents.
Proof.
  intros Hout w w1 newState.
  assert (Hw : installed w) by apply run_installed, initial_installed.
  assert (Hw1 : installed w1) by by apply step_installed.
  destruct (step_native_event event args visible minimized w Hw)
    as (Hc & Hn & _).
  cbv zeta in Hc, Hn. fold w1 in Hc, Hn.
  rewrite (bool_decide_eq_false_2 _ Hout) in Hc, Hn.
  rewrite andb_false_l, app_nil_r in Hn.
  split; [done|]. split; [done|].
  apply Forall_forall. intros event' Hin args'.
  destruct (step_native_event event' args' visible minimized w1 Hw1)
    as (_ & Hn' & _).
  cbv zeta in Hn'.
  rewrite (bool_decide_eq_true_2 _ Hin), andb_true_l in Hn'.
  by rewrite Hn', Hn, Hc.
Qed.

(** A window that was visible is hidden natively and then receives blur:
    nothing is sent and the cache still says visible. *)
Lemma other_events_defer_notification_witness :
  ("blur" ∉ visibilityEvents)
  ∧ notifications
      (step (NativeEvent "blur" [] false false)
         (run [] (initial (sample_native true false) VNull)))
    = notifications (run [] (initial (sample_native true false) VNull))
  ∧ closure_isVisible
      (step (NativeEvent "blur" [] false false)
         (run [] (initial (sample_native true false) VNull)))
    = closure_isVisible (run [] (initial (sample_native true false) VNull)).
Proof.
  assert (H : "blur" ∉ visibilityEvents).
  { apply (bool_decide_unpack _). by vm_compute. }
  split; [exact H|].
  pose proof (other_events_defer_notification (sample_native true false)
                VNull [] "blur" [] false false H) as (Hn & Hc & _).
  split; [exact Hn|exact Hc].
Defined.

(** *** A complete patch *)

(** X13. A patch that has all four fields is forwarded as it is: nothing of
    the current bounds reaches the native [setBounds]. *)
Theorem setBounds_complete_patch_is_forwarded
    (w : BrowserWindow) (patch : gmap string jsval) (opts : list jsval) :
  Forall (fun field => is_Some (patch !! field)) bounds_fields →
  n_setBounds_calls (native (setBounds patch opts w))
  = n_setBounds_calls (native w) ++ [(patch, opts)].
Proof.
  intros Hall. unfold setBounds, nativeSetBounds; simpl. do 3 f_equal.
  apply map_eq. intros field. rewrite lookup_union.
  destruct (patch !! field) as [v|] eqn:Hp; simpl.
  - by destruct (getBounds w !! field).
  - unfold bounds_fields in Hall.
    repeat match goal with
           | H : Forall _ (_ :: _) |- _ => apply Forall_cons in H as [? H]
           end.
    unfold getBounds.
    assert (field ≠ "x") by (intros ->; by destruct H as [? ?]; congruence).
    assert (field ≠ "y") by (intros ->; by destruct H0 as [? ?]; congruence).
    assert (field ≠ "width")
      by (intros ->; by destruct H1 as [? ?]; congruence).
    assert (field ≠ "height")
      by (intros ->; by destruct H2 as [? ?]; congruence).
    by rewrite !lookup_insert_ne, lookup_empty.
Qed.

Lemma setBounds_complete_patch_is_forwarded_witness :
  n_setBounds_calls
    (native
       (setBounds
          (<["x" := VNum 5]> (<["y" := VNum 6]>
             (<["width" := VNum 70]> (<["height" := VNum 80]> ∅))))
          [] (initial (sample_native true false) VNull)))
  = [(<["x" := VNum 5]> (<["y" := VNum 6]>
        (<["width" := VNum 70]> (<["height" := VNum 80]> ∅))), [])].
Proof.
  apply (setBounds_complete_patch_is_forwarded
           (initial (sample_native true false) VNull)
           (<["x" := VNum 5]> (<["y" := VNum 6]>
              (<["width" := VNum 70]> (<["height" := VNum 80]> ∅)))) []).
  unfold bounds_fields.
  repeat (apply Forall_cons; split;
          [apply (bool_decide_unpack _); by vm_compute|]).
  constructor.
Defined.

End BridgeMore.


(** ** More on the helpers *)

Module FacadeMore.

Import Facade.

(** X14. Every helper of lines 191-243 makes exactly one call on the content
    surface, of the method that has the helper's own name; the arguments
    it passes are a prefix of its own (setBackgroundThrottling called
    without arguments passes a single [undefined]). The surface is left in
    the state that call leaves it in, an error thrown by the call is thrown
    by the helper unchanged, and a value returned by the call is returned
    unchanged by every helper except setBackgroundThrottling, which returns
    [undefined]. *)
Theorem helpers_call_once_and_propagate_errors
    (Surface : Type)
    (invoke : string → list jsval → Surface → Completion jsval * Surface)
    (op : Operation) (args : list jsval) (wc : Surface) :
  ∃ passed,
    (passed `prefix_of` args
     ∨ (op = setBackgroundThrottling ∧ args = [] ∧ passed = [VUndefined]))
    ∧ (call Surface invoke op args wc).2
      = (invoke (method op) passed wc).2
    ∧ (∀ e, (invoke (method op) passed wc).1 = Throw e
            → (call Surface invoke op args wc).1 = Throw e)
    ∧ (∀ v, (invoke (method op) passed wc).1 = Return v
            → (call Surface invoke op args wc).1
              = Return (match op with
                        | setBackgroundThrottling => VUndefined
                        | _ => v
                        end)).
Proof.
  destruct op;
    try (exists args; split; [by left|]; by repeat split);
    try (exists []; split; [left; apply prefix_nil|]; by repeat split).
  destruct args as [|allowed rest].
  - exists [VUndefined]. split; [by right|]. simpl.
    destruct (invoke "setBackgroundThrottling" [VUndefined] wc)
      as [[v|e] wc']; simpl; by repeat split.
  - exists [allowed]. split; [left; by exists rest|]. simpl.
    destruct (invoke "setBackgroundThrottling" [allowed] wc)
      as [[v|e] wc']; simpl; by repeat split.
Qed.

End FacadeMore.
